(** * TypeCalm: the guard composition engine and its error policy

    A shallow embedding of [src/index.ts].

    - JavaScript values are an inductive type; numbers are binary64 floats.
    - The closure variable [forceError] of a factory is threaded as state.
    - A [throw] is an abrupt completion carrying the exception: an [Error]
      made by the library, or the [TypeError] of a conversion that fails.
    - [customErrorHandler] is taken to return normally and not to call back
      into the factory; each call is recorded, in order, with its message.
    - A guard is a function from a value to a computation; the guards a
      program composes from one factory are described by a tree. *)

From Stdlib Require Import String Ascii List Bool Arith ZArith Lia.
From Stdlib Require Import Floats.PrimFloat Floats.FloatOps Floats.SpecFloat.
From Stdlib Require Import Numbers.Cyclic.Int63.Uint63.
From Stdlib Require Import DecimalString.
Import ListNotations.

Set Warnings "-register-all".
Local Open Scope string_scope.

(** ** JavaScript values

    The inputs of a guard are data as [JSON.parse] produces it, plus
    [undefined]: no functions, symbols or big integers.  A number is an
    IEEE 754 binary64 value.  The properties of an object are kept in
    own-property enumeration order (the order of [for ... in]); a key
    occurs once. *)

Inductive value : Type :=
| VUndefined
| VNull
| VBool (b : bool)
| VNum (n : float)
| VStr (s : string)
| VArr (elems : list value)
| VObj (props : list (string * value)).

(** The two conversions between binary64 numbers and decimal text are the
    engine's (ECMAScript Number::toString and StringToNumber), and so is
    the message of the [TypeError] thrown when an object has no primitive
    value; the development is parametric in them. *)
Class Engine : Type := {
  NumberToString : float -> string;
  StringToNumber : string -> float;
  CannotConvert : string
}.

Definition dquote : ascii := ascii_of_nat 34.
Definition backslash : ascii := ascii_of_nat 92.

(** [typeof val] *)
Definition typeof (val : value) : string :=
  match val with
  | VUndefined => "undefined"
  | VNull => "object"
  | VBool _ => "boolean"
  | VNum _ => "number"
  | VStr _ => "string"
  | VArr _ => "object"
  | VObj _ => "object"
  end.

(** [val === null] *)
Definition is_null (val : value) : bool :=
  match val with VNull => true | _ => false end.

(** [x !== x] on numbers: true for NaN only. *)
Definition float_ne (x y : float) : bool := negb (PrimFloat.eqb x y).

Definition hex_digit (n : nat) : ascii :=
  nth n (list_ascii_of_string "0123456789abcdef") "0"%char.

(** One code unit of QuoteJSONString. *)
Definition json_escape (c : ascii) : string :=
  let n := nat_of_ascii c in
  if Nat.eqb n 34 then String backslash (String dquote EmptyString)
  else if Nat.eqb n 92 then String backslash (String backslash EmptyString)
  else if Nat.eqb n 8 then "\b"
  else if Nat.eqb n 9 then "\t"
  else if Nat.eqb n 10 then "\n"
  else if Nat.eqb n 12 then "\f"
  else if Nat.eqb n 13 then "\r"
  else if Nat.ltb n 32 then
    "\u00" ++ String (hex_digit (n / 16)) (String (hex_digit (n mod 16)) EmptyString)
  else String c EmptyString.

Fixpoint json_escape_all (s : string) : string :=
  match s with
  | EmptyString => EmptyString
  | String c rest => json_escape c ++ json_escape_all rest
  end.

Definition QuoteJSONString (s : string) : string :=
  String dquote (json_escape_all s) ++ String dquote EmptyString.

(** [`${x}`] where [x] may be [undefined]. *)
Definition template (x : option string) : string :=
  match x with Some s => s | None => "undefined" end.

Section Builtins.
Context {E : Engine}.

(** [JSON.stringify(value)]; [None] is the result [undefined]. *)
Fixpoint JSON_stringify (value : value) : option string :=
  match value with
  | VUndefined => None
  | VNull => Some "null"
  | VBool b => Some (if b then "true" else "false")
  | VNum n => Some (if PrimFloat.is_finite n then NumberToString n else "null")
  | VStr s => Some (QuoteJSONString s)
  | VArr elems =>
      Some ("[" ++ String.concat ","
              (map (fun e => match JSON_stringify e with
                             | Some s => s
                             | None => "null"
                             end) elems) ++ "]")
  | VObj props =>
      Some ("{" ++ String.concat ","
              (flat_map (fun p => match JSON_stringify (snd p) with
                                  | Some s => [QuoteJSONString (fst p) ++ ":" ++ s]
                                  | None => []
                                  end) props) ++ "}")
  end.

(** Whether the conversion of [val] to a primitive ends with one
    (ToPrimitive, for either hint).  A plain object is converted by the
    [toString] it finds: the one of [Object.prototype], unless the object
    owns a property of that name.  In parsed data such a property is not a
    function, and [valueOf] gives back the object, so no primitive is found
    and a [TypeError] is thrown.  An array is converted by
    [Array.prototype.join], which converts every element that is not
    [null] or [undefined]. *)
Fixpoint convertible (val : value) : bool :=
  match val with
  | VArr elems => forallb convertible elems
  | VObj props => negb (existsb (fun p => String.eqb (fst p) "toString") props)
  | _ => true
  end.

(** The result of [String(val)], also of [`${val}`], for a convertible
    value. *)
Fixpoint ToString (val : value) : string :=
  match val with
  | VUndefined => "undefined"
  | VNull => "null"
  | VBool b => if b then "true" else "false"
  | VNum n => NumberToString n
  | VStr s => s
  | VArr elems =>
      String.concat ","
        (map (fun e => match e with
                       | VUndefined | VNull => ""
                       | _ => ToString e
                       end) elems)
  | VObj _ => "[object Object]"
  end.

(** The result of [Number(val)] for a convertible value. *)
Definition ToNumber (val : value) : float :=
  match val with
  | VUndefined => nan
  | VNull => zero
  | VBool b => if b then one else zero
  | VNum n => n
  | VStr s => StringToNumber s
  | VArr _ | VObj _ => StringToNumber (ToString val)
  end.

End Builtins.

(** [Boolean(val)] *)
Definition ToBoolean (val : value) : bool :=
  match val with
  | VUndefined | VNull => false
  | VBool b => b
  | VNum n => negb (PrimFloat.eqb n zero || PrimFloat.is_nan n)
  | VStr s => negb (String.eqb s "")
  | VArr _ | VObj _ => true
  end.

(** SameValueZero, the comparison of [Array.prototype.includes].  Arrays and
    objects compare by identity; an input is never the very object a guard
    was built with, so two of them are never the same value. *)
Definition SameValueZero (x y : value) : bool :=
  match x, y with
  | VUndefined, VUndefined => true
  | VNull, VNull => true
  | VBool a, VBool b => Bool.eqb a b
  | VNum a, VNum b => PrimFloat.eqb a b || (PrimFloat.is_nan a && PrimFloat.is_nan b)
  | VStr a, VStr b => String.eqb a b
  | _, _ => false
  end.

(** [values.includes(value)] *)
Definition includes (values : list value) (value : value) : bool :=
  existsb (fun x => SameValueZero x value) values.

(** *** Properties *)

Definition nat_to_string (n : nat) : string :=
  NilZero.string_of_uint (Nat.to_uint n).

(** The array index a property key denotes, if it is a canonical one. *)
Definition array_index (k : string) : option nat :=
  match NilZero.uint_of_string k with
  | Some u =>
      let n := Nat.of_uint u in
      if String.eqb (nat_to_string n) k then Some n else None
  | None => None
  end.

Fixpoint assoc {A : Type} (k : string) (l : list (string * A)) : option A :=
  match l with
  | [] => None
  | (k', a) :: rest => if String.eqb k' k then Some a else assoc k rest
  end.

(** The names of the members of [Object.prototype], which every object
    inherits. *)
Definition Object_prototype : list string :=
  ["constructor"; "hasOwnProperty"; "isPrototypeOf"; "propertyIsEnumerable";
   "toLocaleString"; "toString"; "valueOf"; "__proto__";
   "__defineGetter__"; "__defineSetter__"; "__lookupGetter__";
   "__lookupSetter__"].

Definition inherited (k : string) : bool :=
  existsb (String.eqb k) Object_prototype.

(** A key that is neither the name of an inherited member nor an array
    index: a property stored under such a key is an own data property, and
    it is enumerated after the properties stored before it. *)
Definition ordinary (k : string) : bool :=
  negb (inherited k) &&
  match array_index k with Some _ => false | None => true end.

(** [val[k]] on a non-null object: an own property (for an array, an
    element or [length]), or [undefined].  The members inherited from
    [Object.prototype] and [Array.prototype] are functions, which are no
    values here: [get] is [val[k]] for a key that [val] owns or that is no
    name of an inherited member ([inherited], for an object that is not an
    array). *)
Definition get (val : value) (k : string) : value :=
  match val with
  | VObj props =>
      match assoc k props with Some v => v | None => VUndefined end
  | VArr elems =>
      if String.eqb k "length"
      then VNum (PrimFloat.of_uint63 (Uint63.of_Z (Z.of_nat (length elems))))
      else match array_index k with
           | Some i => nth i elems VUndefined
           | None => VUndefined
           end
  | _ => VUndefined
  end.

(** [out[k] = v] on an object built by the library, for a key other than
    [__proto__]: the property is replaced where it is, or added.  A loop
    that stores under the keys of another object, in the enumeration order
    of that object, adds them in enumeration order; a new key that is an
    array index would be enumerated before the others. *)
Fixpoint set_prop (out : list (string * value)) (k : string) (v : value)
  : list (string * value) :=
  match out with
  | [] => [(k, v)]
  | (k', v') :: rest =>
      if String.eqb k' k then (k', v) :: rest else (k', v') :: set_prop rest k v
  end.

(** The keys [for (const k in val)] visits. *)
Definition own_keys (val : value) : list string :=
  match val with
  | VObj props => map fst props
  | VArr elems => map nat_to_string (seq 0 (length elems))
  | _ => []
  end.

(** ** Computations

    A guard reads and writes the factory's [forceError] flag, may [throw]
    and may call the configured handler.  What is thrown is an [Error] made
    by [defaultErrorHandler], or the [TypeError] of a conversion; a message
    stands for the [Error] that carries it.  A computation takes the flag
    on entry and gives the completion, the flag on exit and the messages
    handed to [customErrorHandler], oldest first. *)

Inductive exception : Type :=
| Error (message : string)
| TypeError (message : string).

Coercion Error : string >-> exception.

(** [e.message] *)
Definition Error_message (e : exception) : string :=
  match e with
  | Error message | TypeError message => message
  end.

Inductive completion (A : Type) : Type :=
| Normal (a : A)
| Throw (e : exception).
Arguments Normal {A} a.
Arguments Throw {A} e.

Record result (A : Type) : Type := Result {
  outcome : completion A;
  forceError : bool;
  reported : list string
}.
Arguments Result {A} outcome forceError reported.
Arguments outcome {A} r.
Arguments forceError {A} r.
Arguments reported {A} r.

Definition M (A : Type) : Type := bool -> result A.

Definition ret {A : Type} (a : A) : M A :=
  fun fe => Result (Normal a) fe [].

Definition bind {A B : Type} (m : M A) (k : A -> M B) : M B :=
  fun fe =>
    match m fe with
    | Result (Normal a) fe' msgs =>
        match k a fe' with
        | Result o fe'' msgs' => Result o fe'' (msgs ++ msgs')%list
        end
    | Result (Throw e) fe' msgs => Result (Throw e) fe' msgs
    end.

Notation "x <- m ;; k" := (bind m (fun x => k))
  (at level 61, m at next level, right associativity).
Notation "m ;; k" := (bind m (fun _ => k))
  (at level 61, right associativity).

Definition throw {A : Type} (e : exception) : M A :=
  fun fe => Result (Throw e) fe [].

Definition get_forceError : M bool :=
  fun fe => Result (Normal fe) fe [].

Definition set_forceError (b : bool) : M unit :=
  fun _ => Result (Normal tt) b [].

(** [customErrorHandler(str)]: the handler returns; the call is recorded. *)
Definition call_customErrorHandler (str : string) : M unit :=
  fun fe => Result (Normal tt) fe [str].

Definition when (b : bool) (m : M unit) : M unit :=
  if b then m else ret tt.

(** [try { body } catch (e) { handler }] *)
Definition try_catch {A : Type} (body : M A) (handler : exception -> M A)
  : M A :=
  fun fe =>
    match body fe with
    | Result (Normal a) fe' msgs => Result (Normal a) fe' msgs
    | Result (Throw e) fe' msgs =>
        match handler e fe' with
        | Result o fe'' msgs' => Result o fe'' (msgs ++ msgs')%list
        end
    end.

(** [try { body } finally { fin }]: the completion of [body] stands unless
    [fin] throws. *)
Definition try_finally {A : Type} (body : M A) (fin : M unit) : M A :=
  fun fe =>
    match body fe with
    | Result o fe' msgs =>
        match fin fe' with
        | Result (Normal _) fe'' msgs' => Result o fe'' (msgs ++ msgs')%list
        | Result (Throw e) fe'' msgs' => Result (Throw e) fe'' (msgs ++ msgs')%list
        end
    end.

(** [l.forEach(f)] *)
Fixpoint forEach {A : Type} (l : list A) (f : A -> M unit) : M unit :=
  match l with
  | [] => ret tt
  | x :: rest => f x ;; forEach rest f
  end.

Definition TypeGuard : Type := value -> M value.

(** [elems.map(inner)], left to right. *)
Fixpoint Array_map (inner : TypeGuard) (elems : list value) : M (list value) :=
  match elems with
  | [] => ret []
  | x :: rest =>
      y <- inner x ;;
      ys <- Array_map inner rest ;;
      ret (y :: ys)
  end.

(** [String(e)] for an [Error] with the given message. *)
Definition Error_toString (message : string) : string :=
  if String.eqb message "" then "Error" else "Error: " ++ message.

(** [String(e)], also [`${e}`], for what a [catch] receives. *)
Definition exception_toString (e : exception) : string :=
  match e with
  | Error message => Error_toString message
  | TypeError message =>
      if String.eqb message "" then "TypeError" else "TypeError: " ++ message
  end.

Definition quoted (s : string) : string :=
  String dquote s ++ String dquote EmptyString.

(** [val !== val]: true for the number NaN only. *)
Definition self_ne (val : value) : bool :=
  match val with
  | VNum n => float_ne n n
  | _ => false
  end.

(** ** Conversions as the engine runs them *)

Section Conversions.
Context {E : Engine}.

(** [String(val)] and [`${val}`] *)
Definition String_ (val : value) : M string :=
  if convertible val then ret (ToString val)
  else throw (TypeError CannotConvert).

(** [Number(val)] *)
Definition Number_ (val : value) : M float :=
  if convertible val then ret (ToNumber val)
  else throw (TypeError CannotConvert).

End Conversions.

(** ** Error messages *)

Section Messages.
Context {E : Engine}.

Definition invalidType (value : value) (type : string) : string :=
  "`" ++ template (JSON_stringify value) ++ "` is not " ++ type ++ ".".

Definition castingType (value : value) (type : string) : string :=
  "Casting `" ++ template (JSON_stringify value) ++ "` to " ++ type ++ ".".

Definition cannotCast (val : value) : string :=
  "Cannot cast `" ++ template (JSON_stringify val)
    ++ "` to object. Fingers crossed it's not important.".
End Messages.

(** ** Key casing

    [str.replace(/([_][a-z1-9])/ig, g => g.toUpperCase().replace('_', ''))]:
    scanning from the left, an underscore followed by an ASCII letter or a
    digit from 1 to 9 is replaced by that character in upper case; the scan
    goes on after the replaced pair. *)

Module casing.
Module snakeCase.

Definition after_underscore (c : ascii) : bool :=
  let n := nat_of_ascii c in
  (Nat.leb 97 n && Nat.leb n 122) || (Nat.leb 65 n && Nat.leb n 90)
  || (Nat.leb 49 n && Nat.leb n 57).

Definition toUpperCase (c : ascii) : ascii :=
  let n := nat_of_ascii c in
  if Nat.leb 97 n && Nat.leb n 122 then ascii_of_nat (n - 32) else c.

Definition is_underscore (c : ascii) : bool := Nat.eqb (nat_of_ascii c) 95.

Fixpoint toCamelCase (str : string) : string :=
  match str with
  | EmptyString => EmptyString
  | String c rest =>
      match rest with
      | String d rest' =>
          if is_underscore c && after_underscore d
          then String (toUpperCase d) (toCamelCase rest')
          else String c (toCamelCase rest)
      | EmptyString => String c EmptyString
      end
  end.

End snakeCase.
End casing.

(** [obj[k] = x] on an object whose values are of any type. *)
Fixpoint assign {A : Type} (obj : list (string * A)) (k : string) (x : A)
  : list (string * A) :=
  match obj with
  | [] => [(k, x)]
  | (k', x') :: rest =>
      if String.eqb k' k then (k', x) :: rest else (k', x') :: assign rest k x
  end.

(** The properties of an object, in enumeration order. *)
Definition Props : Type := list (string * value).

(** The keys [for (const name in val)] visits, for any value: a string
    has its character positions as keys. *)
Definition for_in_keys (val : value) : list string :=
  match val with
  | VStr s => map nat_to_string (seq 0 (String.length s))
  | _ => own_keys val
  end.

(** [val[k]] for any value that [for ... in] gives keys for. *)
Definition member (val : value) (k : string) : value :=
  match val with
  | VStr s =>
      if String.eqb k "length"
      then VNum (PrimFloat.of_uint63 (Uint63.of_Z (Z.of_nat (String.length s))))
      else match array_index k with
           | Some i =>
               match String.get i s with
               | Some c => VStr (String c EmptyString)
               | None => VUndefined
               end
           | None => VUndefined
           end
  | _ => get val k
  end.

(** The own properties [{...val}] copies. *)
Definition own_props (val : value) : list (string * value) :=
  map (fun k => (k, member val k)) (for_in_keys val).

(** [{...value, ...mapped}] *)
Definition spread (value : value) (mapped : Props) : Props :=
  fold_left (fun out p => set_prop out (fst p) (snd p))
            (own_props value ++ mapped)%list [].

(** ** The factory

    [TypeCalm({ customErrorHandler })]: the section variable tells whether a
    handler was configured; the guards below are the members of the object
    the factory returns, in the order of the source. *)

Module TypeCalm.
Section Factory.
Context {E : Engine}.
Variable customErrorHandler : bool.

Definition defaultErrorHandler (str : string) : M unit :=
  throw (Error str).

Definition errorHandler (str : string) : M unit :=
  fe <- get_forceError ;;
  if fe || negb customErrorHandler then defaultErrorHandler str
  else call_customErrorHandler str.

(** *** Basic validators *)

Definition string : TypeGuard := fun val =>
  if negb (String.eqb (typeof val) "string") then
    errorHandler (invalidType val "a `string`") ;;
    errorHandler (castingType val "a `string`") ;;
    s <- String_ val ;;
    ret (VStr s)
  else ret val.

Definition number : TypeGuard := fun val =>
  if negb (String.eqb (typeof val) "number") then
    errorHandler (invalidType val "a `number`") ;;
    errorHandler (castingType val "a `number`") ;;
    n <- Number_ val ;;
    ret (VNum n)
  else
    when (self_ne val)
         (text <- String_ val ;;
          errorHandler (quoted text ++ " is a NaN")) ;;
    ret val.

Definition boolean : TypeGuard := fun val =>
  if negb (String.eqb (typeof val) "boolean") then
    errorHandler (invalidType val "a `boolean`") ;;
    errorHandler (castingType val "a `boolean`") ;;
    ret (VBool (ToBoolean val))
  else ret val.

(** [array]: the first branch is the one of [Array.isArray(val)]. *)
Definition array (inner : TypeGuard) : TypeGuard := fun val =>
  match val with
  | VArr elems =>
      out <- Array_map inner elems ;;
      ret (VArr out)
  | _ =>
      errorHandler (invalidType val "an `array`") ;;
      text <- String_ val ;;
      errorHandler ("Wrapping " ++ quoted text ++ " in array") ;;
      out <- Array_map inner [val] ;;
      ret (VArr out)
  end.

(** One turn of the loop [for (const k in inner)] of [object]. *)
Definition object_field (k : String.string) (guard : TypeGuard) (val : value)
    (out : list (String.string * value)) : M (list (String.string * value)) :=
  skipCleanup <- get_forceError ;;
  try_finally
    (try_catch
       (set_forceError true ;;
        r <- guard (get val k) ;;
        ret (set_prop out k r))
       (fun e =>
          when (negb skipCleanup) (set_forceError false) ;;
          errorHandler ("Object '" ++ k ++ "' property error: "
                          ++ Error_message e) ;;
          ret (set_prop out k (get val k))))
    (when (negb skipCleanup) (set_forceError false)).

Fixpoint object_fields (inner : list (String.string * TypeGuard)) (val : value)
    (out : list (String.string * value)) : M value :=
  match inner with
  | [] => ret (VObj out)
  | (k, guard) :: rest =>
      out' <- object_field k guard val out ;;
      object_fields rest val out'
  end.

Definition object (inner : list (String.string * TypeGuard)) : TypeGuard :=
  fun val =>
    if is_null val || negb (String.eqb (typeof val) "object") then
      errorHandler (invalidType val "an `object`") ;;
      errorHandler (cannotCast val) ;;
      ret val
    else object_fields inner val [].

(** The loop [for (const k in val)] of [recordOf]. *)
Fixpoint recordOf_fields (inner : TypeGuard) (val : value)
    (keys : list String.string) (out : list (String.string * value)) : M value :=
  match keys with
  | [] => ret (VObj out)
  | k :: rest =>
      r <- inner (get val k) ;;
      recordOf_fields inner val rest (set_prop out k r)
  end.

Definition recordOf (inner : TypeGuard) : TypeGuard := fun val =>
  if is_null val || negb (String.eqb (typeof val) "object") then
    errorHandler (invalidType val "an `object`") ;;
    errorHandler (cannotCast val) ;;
    ret val
  else recordOf_fields inner val (own_keys val) [].

(** *** Optional modifiers *)

Definition nullable (inner : TypeGuard) : TypeGuard := fun val =>
  if is_null val then ret val else inner val.

Definition optional (inner : TypeGuard) : TypeGuard := fun val =>
  if String.eqb (typeof val) "undefined" then ret val else inner val.

(** [either]: the [try]/[catch] part leaves the local variables [errors]
    and [ok] and never completes abruptly; the [finally] block restores
    the flag, reports when no branch matched and ends in [return value]. *)
Definition either (inner1 inner2 : TypeGuard) : TypeGuard := fun value =>
  skipCleanup <- get_forceError ;;
  set_forceError true ;;
  locals <- try_catch
              (inner1 value ;; ret ([], true))
              (fun e1 =>
                 try_catch
                   (inner2 value ;; ret ([e1], true))
                   (fun e2 => ret ([e1; e2], false))) ;;
  let errors : list exception := fst locals in
  let ok : bool := snd locals in
  when (negb skipCleanup) (set_forceError false) ;;
  when (negb ok)
       (forEach errors (fun e => errorHandler (exception_toString e))) ;;
  ret value.

(** *** Converters *)

Definition stringBoolean : TypeGuard := fun val =>
  if String.eqb (typeof val) "boolean" then ret val
  else
    match val with
    | VStr s =>
        if String.eqb s "true" then ret (VBool true)
        else if String.eqb s "false" then ret (VBool false)
        else
          text <- String_ val ;;
          errorHandler (quoted text ++ " is not "
                          ++ quoted "true" ++ " or " ++ quoted "false" ++ " string") ;;
          ret (VBool (ToBoolean val))
    | _ =>
        text <- String_ val ;;
        errorHandler (quoted text ++ " is not "
                        ++ quoted "true" ++ " or " ++ quoted "false" ++ " string") ;;
        ret (VBool (ToBoolean val))
    end.

Definition toBoolean : TypeGuard := fun val =>
  ret (VBool (ToBoolean val)).

Definition toNumber : TypeGuard := fun val =>
  n <- Number_ val ;;
  let parsed := VNum n in
  when (self_ne parsed)
       (text <- String_ val ;;
        errorHandler (quoted ("Number(" ++ text ++ ")") ++ " is NaN")) ;;
  ret parsed.

Definition toString : TypeGuard := fun val =>
  s <- String_ val ;;
  ret (VStr s).

(** *** Checker *)

Definition is_ (value : value) (typeguard : TypeGuard) : M bool :=
  skipCleanup <- get_forceError ;;
  try_finally
    (try_catch
       (set_forceError true ;;
        typeguard value ;;
        ret true)
       (fun _ => ret false))
    (when (negb skipCleanup) (set_forceError false)).

(** [oneOf]: the function body ends after the cast expression, so a call
    that gets past [errorHandler] returns [undefined].  The permitted
    values are written in the program that builds the guard; their text
    [`${values}`] is that of convertible values. *)
Definition oneOf (values : list value) : TypeGuard := fun value =>
  if includes values value then ret value
  else
    errorHandler (invalidType value ("one of " ++ ToString (VArr values))) ;;
    ret VUndefined.

Definition as_ (guard : TypeGuard) : TypeGuard := fun value =>
  guard value.

Definition enumMember (enumType : list (String.string * value))
  : TypeGuard := fun value =>
  let isEnumItem :=
    includes (map (fun key => get (VObj enumType) key) (map fst enumType)) value in
  if isEnumItem then ret value
  else
    errorHandler (invalidType value "a member of passed enum") ;;
    ret value.

(** *** Decorators

    A statement of [mapper] and the second argument of [decorate] are
    functions of the caller; they are computations like the guards. *)

(** One turn of the loop [for (const name in statements)] of [mapper]. *)
Definition mapper_statement (name : String.string) (statement : value -> M value)
    (value : value) (mapped : Props) : M Props :=
  try_catch
    (r <- statement value ;;
     ret (set_prop mapped name r))
    (fun e =>
       errorHandler ("Cannot map `" ++ name ++ "`: " ++ exception_toString e) ;;
       errorHandler ("Skipping `" ++ name
                       ++ "`. Fingers crossed it's not important.") ;;
       ret (set_prop mapped name VUndefined)).

Fixpoint mapper_statements (statements : list (String.string * (value -> M value)))
    (value : value) (mapped : Props) : M Props :=
  match statements with
  | [] => ret mapped
  | (name, statement) :: rest =>
      mapped' <- mapper_statement name statement value mapped ;;
      mapper_statements rest value mapped'
  end.

Definition mapper (statements : list (String.string * (value -> M value)))
  : value -> M value := fun value =>
  mapped <- mapper_statements statements value [] ;;
  ret (VObj (spread value mapped)).

(** The loop [for (const name in value)] of [rename]; [if (newName)] fails
    for a missing entry and for the empty name.  [statements[name]] is the
    entry the statements own, for a name that is no name of an inherited
    member ([inherited]). *)
Fixpoint rename_names (statements : list (String.string * String.string))
    (value : value) (names : list String.string) (mapped : Props) : Props :=
  match names with
  | [] => mapped
  | name :: rest =>
      let newName := assoc name statements in
      rename_names statements value rest
        (match newName with
         | Some n =>
             if negb (String.eqb n "") then set_prop mapped n (member value name)
             else set_prop mapped name (member value name)
         | None => set_prop mapped name (member value name)
         end)
  end.

Definition rename (statements : list (String.string * String.string))
  : value -> value := fun value =>
  VObj (rename_names statements value (for_in_keys value) []).

(** [renameCase.snake.toCamel] *)
Definition renameCase_snake_toCamel : value -> value := fun value =>
  let statements :=
    fold_left (fun statements name =>
                 assign statements name (casing.snakeCase.toCamelCase name))
              (for_in_keys value) [] in
  rename statements value.

Definition decorate (typeguard : TypeGuard) (mapper : value -> M value)
  : TypeGuard := fun value =>
  mapped <- mapper value ;;
  typeguard mapped.

End Factory.
End TypeCalm.

(** ** Composition trees

    The guards a program builds from the members of one factory. *)

Inductive schema : Type :=
| SNumber
| SString
| SBoolean
| SArray (inner : schema)
| SObject (inner : list (string * schema))
| SRecordOf (inner : schema)
| SNullable (inner : schema)
| SOptional (inner : schema)
| SEither (inner1 inner2 : schema)
| SStringBoolean
| SToBoolean
| SToNumber
| SToString
| SOneOf (values : list value)
| SEnumMember (enumType : list (string * value))
| SAs (guard : schema).

Section Guards.
Context {E : Engine}.
Variable customErrorHandler : bool.

(** The guard a tree denotes. *)
Fixpoint guard_of (s : schema) : TypeGuard :=
  match s with
  | SNumber => TypeCalm.number customErrorHandler
  | SString => TypeCalm.string customErrorHandler
  | SBoolean => TypeCalm.boolean customErrorHandler
  | SArray inner => TypeCalm.array customErrorHandler (guard_of inner)
  | SObject inner =>
      TypeCalm.object customErrorHandler
        (map (fun p => (fst p, guard_of (snd p))) inner)
  | SRecordOf inner => TypeCalm.recordOf customErrorHandler (guard_of inner)
  | SNullable inner => TypeCalm.nullable (guard_of inner)
  | SOptional inner => TypeCalm.optional (guard_of inner)
  | SEither inner1 inner2 =>
      TypeCalm.either customErrorHandler (guard_of inner1) (guard_of inner2)
  | SStringBoolean => TypeCalm.stringBoolean customErrorHandler
  | SToBoolean => TypeCalm.toBoolean
  | SToNumber => TypeCalm.toNumber customErrorHandler
  | SToString => TypeCalm.toString
  | SOneOf values => TypeCalm.oneOf customErrorHandler values
  | SEnumMember enumType => TypeCalm.enumMember customErrorHandler enumType
  | SAs guard => TypeCalm.as_ (guard_of guard)
  end.

End Guards.

(** Whether [needle] occurs in [s]. *)
Fixpoint contains (s needle : string) : bool :=
  if String.prefix needle s then true
  else match s with
       | EmptyString => false
       | String _ rest => contains rest needle
       end.

(** ** An engine for closed examples

    It prints NaN, the infinities, zero and the integers below 10^21 as
    ECMAScript does and reads unsigned decimal integers; elsewhere it gives
    the empty text or NaN.  The examples stay inside that range. *)

Definition integer_of_float (f : float) : option Z :=
  match Prim2SF f with
  | S754_zero _ => Some 0%Z
  | S754_finite s m e =>
      let mag :=
        if (0 <=? e)%Z then Some (Z.pos m * 2 ^ e)%Z
        else if (Z.pos m mod 2 ^ (- e) =? 0)%Z then Some (Z.pos m / 2 ^ (- e))%Z
        else None in
      option_map (fun z => if s then (- z)%Z else z) mag
  | _ => None
  end.

Definition print_number (f : float) : string :=
  match Prim2SF f with
  | S754_nan => "NaN"
  | S754_infinity s => if s then "-Infinity" else "Infinity"
  | _ =>
      match integer_of_float f with
      | Some z =>
          if (Z.abs z <? 10 ^ 21)%Z then NilZero.string_of_int (Z.to_int z) else ""
      | None => ""
      end
  end.

Definition read_number (s : string) : float :=
  if String.eqb s "" then zero
  else match NilZero.uint_of_string s with
       | Some u =>
           let z := Z.of_uint u in
           if (z <? 2 ^ 53)%Z then PrimFloat.of_uint63 (Uint63.of_Z z) else nan
       | None => nan
       end.

Definition sample_engine : Engine :=
  {| NumberToString := print_number;
     StringToNumber := read_number;
     CannotConvert := "Cannot convert object to primitive value" |}.

(** * Vocabulary of the properties *)

(** ** The flag discipline

    A computation is disciplined when it leaves [forceError] as it found
    it, on every completion, and hands nothing to the custom handler while
    the policy raises (the flag is set, or no handler is configured). *)

Definition raising (customErrorHandler fe : bool) : bool :=
  fe || negb customErrorHandler.

Definition disciplined (c : bool) {A : Type} (m : M A) : Prop :=
  (forall fe, forceError (m fe) = fe) /\
  (forall fe, raising c fe = true -> reported (m fe) = []).

Definition disciplined_guard (c : bool) (g : TypeGuard) : Prop :=
  forall v, disciplined c (g v).

(** The report a declared field gives rise to: none when its guard returns
    under the flag, one naming the field when it throws. *)
Definition field_report {E : Engine} (c : bool) (val : value)
    (p : string * schema) : list string :=
  match outcome (guard_of c (snd p) (get val (fst p)) true) with
  | Normal _ => []
  | Throw e => ["Object '" ++ fst p ++ "' property error: " ++ Error_message e]
  end.

Definition fields_of {E : Engine} (c : bool) (shape : list (string * schema))
  : list (string * TypeGuard) :=
  map (fun p => (fst p, guard_of c (snd p))) shape.

(** A computation is lenient when, started with the flag clear, it returns
    and leaves the flag clear. *)
Definition lenient {A : Type} (m : M A) : Prop :=
  forceError (m false) = false /\ exists a, outcome (m false) = Normal a.

(** Two computations agree when, whenever the policy raises for both, they
    complete alike and each leaves its flag as it found it. *)
Definition agree (c c' : bool) {A : Type} (m m' : M A) : Prop :=
  forall fe fe', raising c fe = true -> raising c' fe' = true ->
    outcome (m fe) = outcome (m' fe') /\
    forceError (m fe) = fe /\ forceError (m' fe') = fe'.

(** What the top-level guard of a tree lets through. *)
Definition accepts {E : Engine} (s : schema) (v : value) : Prop :=
  exists r, outcome (guard_of false s v false) = Normal r.

(** What [object] stores for a declared field: the validated value, or,
    when the failure of the field was reported to the handler, the raw one. *)
Definition field_result {E : Engine} (c : bool) (val : value) (fe : bool)
    (p : string * schema) (q : string * value) : Prop :=
  fst q = fst p /\
  (outcome (guard_of c (snd p) (get val (fst p)) true) = Normal (snd q) \/
   (raising c fe = false /\
    (exists e, outcome (guard_of c (snd p) (get val (fst p)) true) = Throw e) /\
    snd q = get val (fst p))).

(** The declared keys of every [object] of a tree are distinct, as the keys
    of an object literal are. *)
Fixpoint distinct_keys (s : schema) : Prop :=
  match s with
  | SArray inner | SRecordOf inner | SNullable inner | SOptional inner
  | SAs inner => distinct_keys inner
  | SEither inner1 inner2 => distinct_keys inner1 /\ distinct_keys inner2
  | SObject inner =>
      NoDup (map fst inner) /\
      (fix fields (l : list (string * schema)) : Prop :=
         match l with
         | [] => True
         | p :: rest => distinct_keys (snd p) /\ fields rest
         end) inner
  | _ => True
  end.

(** What [recordOf] stores under a key: the result of the inner guard on
    the value the input has there. *)
Definition record_value (g : TypeGuard) (val : value) (fe : bool)
    (k : string) : value :=
  match outcome (g (get val k) fe) with
  | Normal x => x
  | Throw _ => VUndefined
  end.

(** No underscore occurs in a string. *)
Fixpoint no_underscore (s : string) : bool :=
  match s with
  | EmptyString => true
  | String c rest => negb (casing.snakeCase.is_underscore c) && no_underscore rest
  end.

(** The key [rename] stores a property under. *)
Definition renamed (statements : list (string * string)) (name : string)
  : string :=
  match assoc name statements with
  | Some n => if negb (String.eqb n "") then n else name
  | None => name
  end.

(** The last binding of a key in a list of assignments. *)
Fixpoint last_binding (k : string) (l : list (string * value)) : option value :=
  match l with
  | [] => None
  | p :: rest =>
      match last_binding k rest with
      | Some x => Some x
      | None => if String.eqb (fst p) k then Some (snd p) else None
      end
  end.

(** No object inside [val] owns a [toString] property: every value a guard
    finds in [val] is convertible. *)
Fixpoint all_convertible (val : value) : bool :=
  match val with
  | VArr elems => forallb all_convertible elems
  | VObj props =>
      negb (existsb (fun p => String.eqb (fst p) "toString") props)
      && forallb (fun p => all_convertible (snd p)) props
  | _ => true
  end.

(** The permitted values of every [oneOf] of a tree are convertible. *)
Fixpoint permitted_convertible (s : schema) : bool :=
  match s with
  | SOneOf values => convertible (VArr values)
  | SArray inner | SRecordOf inner | SNullable inner | SOptional inner
  | SAs inner => permitted_convertible inner
  | SEither inner1 inner2 =>
      permitted_convertible inner1 && permitted_convertible inner2
  | SObject inner =>
      (fix fields (l : list (string * schema)) : bool :=
         match l with
         | [] => true
         | p :: rest => permitted_convertible (snd p) && fields rest
         end) inner
  | _ => true
  end.

(** A guard on [v] reads and stores own properties only: [object] meets
    no array and declares no name of an inherited member, and [recordOf]
    meets no key [__proto__].  Then [get] gives what the code reads and
    [set_prop] does what its assignments do. *)
Fixpoint own_reads (s : schema) (v : value) : bool :=
  match s with
  | SArray inner =>
      match v with
      | VArr elems => forallb (own_reads inner) elems
      | _ => true
      end
  | SObject inner =>
      match v with
      | VArr _ => false
      | _ =>
          (fix fields (l : list (string * schema)) : bool :=
             match l with
             | [] => true
             | p :: rest =>
                 negb (inherited (fst p))
                 && own_reads (snd p) (get v (fst p)) && fields rest
             end) inner
      end
  | SRecordOf inner =>
      negb (existsb (String.eqb "__proto__") (own_keys v))
      && forallb (fun k => own_reads inner (get v k)) (own_keys v)
  | SNullable inner | SOptional inner | SAs inner => own_reads inner v
  | SEither inner1 inner2 => own_reads inner1 v && own_reads inner2 v
  | _ => true
  end.

(** A guard lets its own results through unchanged while the policy
    raises. *)
Definition idempotent_at {E : Engine} (c : bool) (s : schema) : Prop :=
  forall v r fe,
    raising c fe = true ->
    outcome (guard_of c s v fe) = Normal r ->
    outcome (guard_of c s r fe) = Normal r.

(** The data of the tests of the repository; [toThrow(text)] asks for a
    message that contains [text]. *)

Definition throws_with {A : Type} (r : result A) (text : string) : bool :=
  match outcome r with
  | Normal _ => false
  | Throw e => contains (Error_message e) text
  end.

Definition nested_shape : schema :=
  SObject [("obj", SObject [("num", SNumber); ("str", SString);
                            ("numarr", SArray SNumber)]);
           ("num", SNumber); ("str", SString); ("numarr", SArray SNumber)].

Definition testValue : value :=
  VObj [("obj", VObj [("num", VNum 4%float); ("str", VStr "str");
                      ("numarr", VArr [VNum 1%float; VNum 2%float; VNum 3%float])]);
        ("num", VNum 4%float); ("str", VStr "str");
        ("numarr", VArr [VNum 1%float; VNum 2%float; VNum 3%float])].

Definition failingTestValue : value :=
  VObj [("obj", VObj [("num", VStr "4"); ("str", VNum 4%float);
                      ("numarr", VArr [VStr "a"; VStr "b"])]);
        ("num", VStr "4"); ("str", VNum 4%float);
        ("numarr", VArr [VStr "a"; VStr "b"])].

Definition nested_union : schema :=
  SEither SNumber (SEither (SArray SNumber) (SEither SBoolean SString)).

(** * Properties *)

(** ** Induction on composition trees *)

Section SchemaInduction.
Variable P : schema -> Prop.
Hypothesis HNumber : P SNumber.
Hypothesis HString : P SString.
Hypothesis HBoolean : P SBoolean.
Hypothesis HArray : forall inner, P inner -> P (SArray inner).
Hypothesis HObject :
  forall inner, Forall (fun p => P (snd p)) inner -> P (SObject inner).
Hypothesis HRecordOf : forall inner, P inner -> P (SRecordOf inner).
Hypothesis HNullable : forall inner, P inner -> P (SNullable inner).
Hypothesis HOptional : forall inner, P inner -> P (SOptional inner).
Hypothesis HEither :
  forall inner1 inner2, P inner1 -> P inner2 -> P (SEither inner1 inner2).
Hypothesis HStringBoolean : P SStringBoolean.
Hypothesis HToBoolean : P SToBoolean.
Hypothesis HToNumber : P SToNumber.
Hypothesis HToString : P SToString.
Hypothesis HOneOf : forall values, P (SOneOf values).
Hypothesis HEnumMember : forall enumType, P (SEnumMember enumType).
Hypothesis HAs : forall guard, P guard -> P (SAs guard).

Fixpoint schema_induction (s : schema) : P s :=
  match s with
  | SNumber => HNumber
  | SString => HString
  | SBoolean => HBoolean
  | SArray inner => HArray inner (schema_induction inner)
  | SObject inner =>
      HObject inner
        ((fix fields (l : list (string * schema))
            : Forall (fun p => P (snd p)) l :=
            match l with
            | [] => Forall_nil _
            | p :: rest =>
                Forall_cons p (schema_induction (snd p)) (fields rest)
            end) inner)
  | SRecordOf inner => HRecordOf inner (schema_induction inner)
  | SNullable inner => HNullable inner (schema_induction inner)
  | SOptional inner => HOptional inner (schema_induction inner)
  | SEither inner1 inner2 =>
      HEither inner1 inner2 (schema_induction inner1) (schema_induction inner2)
  | SStringBoolean => HStringBoolean
  | SToBoolean => HToBoolean
  | SToNumber => HToNumber
  | SToString => HToString
  | SOneOf values => HOneOf values
  | SEnumMember enumType => HEnumMember enumType
  | SAs guard => HAs guard (schema_induction guard)
  end.

End SchemaInduction.

Ltac run :=
  cbv beta iota zeta delta
    [TypeCalm.errorHandler TypeCalm.defaultErrorHandler
     call_customErrorHandler when try_finally try_catch bind ret throw
     get_forceError set_forceError raising forEach
     outcome forceError reported app fst snd] in *.

Lemma disciplined_ret (c : bool) {A : Type} (a : A) : disciplined c (ret a).
Proof. split; intros; reflexivity. Qed.

Lemma disciplined_bind (c : bool) {A B : Type} (m : M A) (k : A -> M B) :
  disciplined c m -> (forall a, disciplined c (k a)) ->
  disciplined c (bind m k).
Proof.
  intros [Hf Hr] Hk; split; intro fe; unfold bind;
    specialize (Hf fe); specialize (Hr fe);
    destruct (m fe) as [[a | e] f t]; simpl in *; subst f; auto;
    destruct (Hk a) as [Hf' Hr']; specialize (Hf' fe); specialize (Hr' fe);
    destruct (k a fe) as [o f' t']; simpl in *; auto.
  intro Hfe; rewrite (Hr Hfe), (Hr' Hfe); reflexivity.
Qed.

Lemma disciplined_throw (c : bool) {A : Type} (e : exception) :
  disciplined c (throw (A := A) e).
Proof. split; intros; reflexivity. Qed.

Lemma disciplined_String_ {E : Engine} (c : bool) (val : value) :
  disciplined c (String_ val).
Proof.
  unfold String_; destruct (convertible val);
    [apply disciplined_ret | apply disciplined_throw].
Qed.

Lemma disciplined_Number_ {E : Engine} (c : bool) (val : value) :
  disciplined c (Number_ val).
Proof.
  unfold Number_; destruct (convertible val);
    [apply disciplined_ret | apply disciplined_throw].
Qed.

Lemma disciplined_errorHandler (c : bool) (str : string) :
  disciplined c (TypeCalm.errorHandler c str).
Proof.
  split; intro fe; unfold disciplined, raising; run.
  - destruct (fe || negb c); reflexivity.
  - intro H; rewrite H; reflexivity.
Qed.

Lemma disciplined_when (c b : bool) (m : M unit) :
  disciplined c m -> disciplined c (when b m).
Proof. destruct b; simpl; auto using disciplined_ret. Qed.

Lemma disciplined_Array_map (c : bool) (g : TypeGuard) (elems : list value) :
  disciplined_guard c g -> disciplined c (Array_map g elems).
Proof.
  intro Hg; induction elems; simpl;
    auto 6 using disciplined_ret, disciplined_bind.
Qed.

Create HintDb discipline.

#[local] Hint Resolve disciplined_ret disciplined_bind disciplined_errorHandler
  disciplined_when disciplined_Array_map disciplined_throw
  disciplined_String_ disciplined_Number_ : discipline.

Ltac discipline :=
  repeat (intros;
          match goal with
          | |- disciplined _ (bind _ _) => apply disciplined_bind
          | |- disciplined _ (if ?b then _ else _) => destruct b
          | |- disciplined _ (match ?v with _ => _ end) => destruct v
          | |- disciplined _ _ => solve [auto with discipline]
          end).

(** ** The three places that set the flag

    [object] (one field), [either] and [is] save [forceError], set it, and
    restore it.  For disciplined inner guards each of them is fixed by the
    completions of those guards under the flag. *)

Section Steps.
Context {E : Engine}.
Variable c : bool.

Lemma object_field_unfold (k : string) (g : TypeGuard) (val : value)
    (out : list (string * value)) (fe : bool) :
  disciplined c (g (get val k)) ->
  TypeCalm.object_field c k g val out fe =
    match outcome (g (get val k) true) with
    | Normal r => Result (Normal (set_prop out k r)) fe []
    | Throw e =>
        if raising c fe
        then Result (Throw ("Object '" ++ k ++ "' property error: "
                              ++ Error_message e)) fe []
        else Result (Normal (set_prop out k (get val k))) fe
               ["Object '" ++ k ++ "' property error: " ++ Error_message e]
    end.
Proof.
  intros [Hf Hr]; specialize (Hf true); specialize (Hr true eq_refl).
  unfold TypeCalm.object_field; run.
  destruct (g (get val k) true) as [[a | e] f t]; run; subst f t;
    destruct fe, c; reflexivity.
Qed.

Lemma either_unfold (g1 g2 : TypeGuard) (v : value) (fe : bool) :
  disciplined_guard c g1 -> disciplined_guard c g2 ->
  TypeCalm.either c g1 g2 v fe =
    match outcome (g1 v true), outcome (g2 v true) with
    | Normal _, _ => Result (Normal v) fe []
    | Throw _, Normal _ => Result (Normal v) fe []
    | Throw e1, Throw e2 =>
        if raising c fe
        then Result (Throw (exception_toString e1)) fe []
        else Result (Normal v) fe [exception_toString e1; exception_toString e2]
    end.
Proof.
  intros H1 H2.
  destruct (H1 v) as [Hf1 Hr1]; destruct (H2 v) as [Hf2 Hr2].
  specialize (Hf1 true); specialize (Hr1 true eq_refl).
  specialize (Hf2 true); specialize (Hr2 true eq_refl).
  unfold TypeCalm.either; run.
  destruct (g1 v true) as [[a1 | e1] f1 t1]; run; subst f1 t1;
    [destruct fe; reflexivity |].
  destruct (g2 v true) as [[a2 | e2] f2 t2]; run; subst f2 t2;
    destruct fe, c; reflexivity.
Qed.

Lemma is_unfold (v : value) (g : TypeGuard) (fe : bool) :
  disciplined_guard c g ->
  TypeCalm.is_ v g fe =
    Result (Normal (match outcome (g v true) with
                    | Normal _ => true
                    | Throw _ => false
                    end)) fe [].
Proof.
  intros Hg. destruct (Hg v) as [Hf Hr].
  specialize (Hf true); specialize (Hr true eq_refl).
  unfold TypeCalm.is_; run.
  destruct (g v true) as [[a | e] f t]; run; subst f t;
    destruct fe; reflexivity.
Qed.

(** A field whose guard returns: the validated value is stored. *)
Lemma object_field_returns (k : string) (g : TypeGuard) (val : value)
    (out : list (string * value)) (r : value) (fe : bool) :
  disciplined c (g (get val k)) ->
  outcome (g (get val k) true) = Normal r ->
  TypeCalm.object_field c k g val out fe
    = Result (Normal (set_prop out k r)) fe [].
Proof.
  intros Hg Ho; rewrite (object_field_unfold k g val out fe Hg), Ho.
  reflexivity.
Qed.

(** A field whose guard throws: the failure is passed on, with the name of
    the field, to [errorHandler], which runs under the flag of the caller. *)
Lemma object_field_throws (k : string) (g : TypeGuard) (val : value)
    (out : list (string * value)) (e : exception) (fe : bool) :
  disciplined c (g (get val k)) ->
  outcome (g (get val k) true) = Throw e ->
  TypeCalm.object_field c k g val out fe
    = if raising c fe
      then Result (Throw ("Object '" ++ k ++ "' property error: "
                            ++ Error_message e)) fe []
      else Result (Normal (set_prop out k (get val k))) fe
             ["Object '" ++ k ++ "' property error: " ++ Error_message e].
Proof.
  intros Hg Ho; rewrite (object_field_unfold k g val out fe Hg), Ho.
  reflexivity.
Qed.

(** Elements that return are collected in order. *)
Lemma Array_map_returns (g : TypeGuard) (fe : bool) (vs rs : list value) :
  disciplined_guard c g ->
  Forall2 (fun v r => outcome (g v fe) = Normal r) vs rs ->
  outcome (Array_map g vs fe) = Normal rs /\
  forceError (Array_map g vs fe) = fe.
Proof.
  intros Hg H; induction H as [| v r vs rs Hv _ [IHo IHf]]; simpl; auto.
  unfold bind, ret. destruct (Hg v) as [Hf _]; specialize (Hf fe).
  destruct (g v fe) as [[a | e] f t]; simpl in *; [| discriminate].
  inversion Hv; subst.
  destruct (Array_map g vs fe) as [[a' | e'] f' t']; simpl in *;
    [| discriminate].
  inversion IHo; subst; auto.
Qed.

(** The first element that throws ends the traversal: the result does not
    depend on the elements after it. *)
Lemma Array_map_throws (g : TypeGuard) (fe : bool) (pre : list value)
    (x : value) (post : list value) (e : exception) :
  disciplined_guard c g ->
  Forall (fun v => exists r, outcome (g v fe) = Normal r) pre ->
  outcome (g x fe) = Throw e ->
  outcome (Array_map g (pre ++ x :: post) fe) = Throw e /\
  Array_map g (pre ++ x :: post) fe = Array_map g (pre ++ [x]) fe.
Proof.
  intros Hg H Hx.
  assert (Heq : Array_map g (pre ++ x :: post) fe = Array_map g (pre ++ [x]) fe).
  { clear H; induction pre as [| v pre IH]; simpl; unfold bind.
    - destruct (g x fe) as [[a | e'] f t]; simpl in *;
        [discriminate | reflexivity].
    - destruct (Hg v) as [Hf _]; specialize (Hf fe).
      destruct (g v fe) as [[a | e'] f t]; simpl in *; [| reflexivity].
      subst f; rewrite IH; reflexivity. }
  split; [| exact Heq].
  clear Heq; induction H as [| v pre [r Hv] _ IH]; simpl; unfold bind.
  - destruct (g x fe) as [[a | e'] f t]; simpl in *;
      [discriminate | inversion Hx; reflexivity].
  - destruct (Hg v) as [Hf _]; specialize (Hf fe).
    destruct (g v fe) as [[a | e'] f t]; simpl in *; [| discriminate].
    subst f.
    destruct (Array_map g (pre ++ x :: post) fe) as [[ys | e'] f' t'];
      simpl in *; [discriminate | exact IH].
Qed.

End Steps.

(** ** Every guard of a factory is disciplined *)

Section Discipline.
Context {E : Engine}.
Variable c : bool.

Lemma disciplined_string : disciplined_guard c (TypeCalm.string c).
Proof. intro v; unfold TypeCalm.string; discipline. Qed.

Lemma disciplined_number : disciplined_guard c (TypeCalm.number c).
Proof. intro v; unfold TypeCalm.number; discipline. Qed.

Lemma disciplined_boolean : disciplined_guard c (TypeCalm.boolean c).
Proof. intro v; unfold TypeCalm.boolean; discipline. Qed.

Lemma disciplined_array (g : TypeGuard) :
  disciplined_guard c g -> disciplined_guard c (TypeCalm.array c g).
Proof. intros Hg v; unfold TypeCalm.array; discipline. Qed.

Lemma disciplined_object_field (k : string) (g : TypeGuard) (val : value)
    (out : list (string * value)) :
  disciplined c (g (get val k)) ->
  disciplined c (TypeCalm.object_field c k g val out).
Proof.
  intro Hg; split; intro fe; rewrite (object_field_unfold c k g val out fe Hg);
    destruct (outcome (g (get val k) true)); try reflexivity.
  - destruct (raising c fe); reflexivity.
  - intro Hc; rewrite Hc; reflexivity.
Qed.

Lemma disciplined_object_fields (inner : list (string * TypeGuard))
    (val : value) :
  Forall (fun p => disciplined_guard c (snd p)) inner ->
  forall out, disciplined c (TypeCalm.object_fields c inner val out).
Proof.
  induction 1 as [| [k g] rest Hg _ IH]; intro out; simpl.
  - apply disciplined_ret.
  - apply disciplined_bind; [apply disciplined_object_field, Hg | apply IH].
Qed.

Lemma disciplined_object (inner : list (string * TypeGuard)) :
  Forall (fun p => disciplined_guard c (snd p)) inner ->
  disciplined_guard c (TypeCalm.object c inner).
Proof.
  intros Hinner v; unfold TypeCalm.object.
  destruct (is_null v || negb (String.eqb (typeof v) "object")).
  - discipline.
  - apply disciplined_object_fields, Hinner.
Qed.

Lemma disciplined_recordOf_fields (g : TypeGuard) (val : value)
    (keys : list string) :
  disciplined_guard c g ->
  forall out, disciplined c (TypeCalm.recordOf_fields g val keys out).
Proof.
  intro Hg; induction keys; intro out; simpl; discipline.
Qed.

Lemma disciplined_recordOf (g : TypeGuard) :
  disciplined_guard c g -> disciplined_guard c (TypeCalm.recordOf c g).
Proof.
  intros Hg v; unfold TypeCalm.recordOf.
  destruct (is_null v || negb (String.eqb (typeof v) "object")).
  - discipline.
  - apply disciplined_recordOf_fields, Hg.
Qed.

Lemma disciplined_nullable (g : TypeGuard) :
  disciplined_guard c g -> disciplined_guard c (TypeCalm.nullable g).
Proof. intros Hg v; unfold TypeCalm.nullable; discipline. Qed.

Lemma disciplined_optional (g : TypeGuard) :
  disciplined_guard c g -> disciplined_guard c (TypeCalm.optional g).
Proof. intros Hg v; unfold TypeCalm.optional; discipline. Qed.

Lemma disciplined_either (g1 g2 : TypeGuard) :
  disciplined_guard c g1 -> disciplined_guard c g2 ->
  disciplined_guard c (TypeCalm.either c g1 g2).
Proof.
  intros H1 H2 v; split; intro fe; rewrite (either_unfold c g1 g2 v fe H1 H2);
    destruct (outcome (g1 v true)); try reflexivity;
    destruct (outcome (g2 v true)); try reflexivity.
  - destruct (raising c fe); reflexivity.
  - intro Hc; rewrite Hc; reflexivity.
Qed.

Lemma disciplined_stringBoolean :
  disciplined_guard c (TypeCalm.stringBoolean c).
Proof. intro v; unfold TypeCalm.stringBoolean; discipline. Qed.

Lemma disciplined_toNumber : disciplined_guard c (TypeCalm.toNumber c).
Proof. intro v; unfold TypeCalm.toNumber; discipline. Qed.

Lemma disciplined_toString : disciplined_guard c TypeCalm.toString.
Proof. intro v; unfold TypeCalm.toString; discipline. Qed.

Lemma disciplined_oneOf (values : list value) :
  disciplined_guard c (TypeCalm.oneOf c values).
Proof. intro v; unfold TypeCalm.oneOf; discipline. Qed.

Lemma disciplined_enumMember (enumType : list (string * value)) :
  disciplined_guard c (TypeCalm.enumMember c enumType).
Proof. intro v; unfold TypeCalm.enumMember; discipline. Qed.

(** Every guard built from the members of a factory is disciplined. *)
Lemma disciplined_guard_of (s : schema) : disciplined_guard c (guard_of c s).
Proof.
  induction s using schema_induction; cbn [guard_of].
  - apply disciplined_number.
  - apply disciplined_string.
  - apply disciplined_boolean.
  - apply disciplined_array; assumption.
  - apply disciplined_object. rewrite Forall_map. exact H.
  - apply disciplined_recordOf; assumption.
  - apply disciplined_nullable; assumption.
  - apply disciplined_optional; assumption.
  - apply disciplined_either; assumption.
  - apply disciplined_stringBoolean.
  - intro v; apply disciplined_ret.
  - apply disciplined_toNumber.
  - apply disciplined_toString.
  - apply disciplined_oneOf.
  - apply disciplined_enumMember.
  - exact IHs.
Qed.

End Discipline.

(** ** Claims on the flag, [is] and the primitive guards *)

Section Claims.
Context {E : Engine}.

(** C1: every guard built from a factory's members, and [is] on such a
    guard, leaves [forceError] on exit (normal or by a throw) as it was on
    entry; hence a top-level call that follows another one, whatever the
    first did, behaves as it does on a fresh factory. *)
Theorem C1_forceError_restored (c : bool) (s : schema) (v : value) :
  (forall fe, forceError (guard_of c s v fe) = fe) /\
  (forall fe, forceError (TypeCalm.is_ v (guard_of c s) fe) = fe) /\
  (forall s' v',
      guard_of c s' v' (forceError (guard_of c s v false))
        = guard_of c s' v' false) /\
  (forall s' v',
      guard_of c s' v' (forceError (TypeCalm.is_ v (guard_of c s) false))
        = guard_of c s' v' false) /\
  (forall s' v',
      TypeCalm.is_ v' (guard_of c s') (forceError (guard_of c s v false))
        = TypeCalm.is_ v' (guard_of c s') false).
Proof.
  assert (Hg : forall fe, forceError (guard_of c s v fe) = fe)
    by (intro fe; apply (disciplined_guard_of c s v)).
  assert (Hi : forall fe, forceError (TypeCalm.is_ v (guard_of c s) fe) = fe)
    by (intro fe; rewrite (is_unfold c v _ fe (disciplined_guard_of c s));
        reflexivity).
  repeat split; intros; rewrite ?Hg, ?Hi; reflexivity.
Qed.

(** C3: [is(v, g)] returns [true] exactly when [g(v)] does not throw with
    the flag set; it always returns, hands nothing to the custom handler in
    either reporting mode, and leaves the flag as it found it, set or not. *)
Theorem C3_is_predicate (c : bool) (v : value) (s : schema) (fe : bool) :
  (outcome (TypeCalm.is_ v (guard_of c s) fe) = Normal true <->
   exists r, outcome (guard_of c s v true) = Normal r) /\
  (exists b, outcome (TypeCalm.is_ v (guard_of c s) fe) = Normal b) /\
  reported (TypeCalm.is_ v (guard_of c s) fe) = [] /\
  forceError (TypeCalm.is_ v (guard_of c s) fe) = fe.
Proof.
  rewrite (is_unfold c v _ fe (disciplined_guard_of c s)); cbn [outcome].
  repeat split; auto.
  - destruct (outcome (guard_of c s v true)) as [r | e]; intro H;
      [exists r; reflexivity | discriminate].
  - intros [r Hr']; rewrite Hr'; reflexivity.
  - eexists; reflexivity.
Qed.

(** C4: a primitive guard returns an input of its own kind unchanged, with
    nothing reported; for [number] this needs the input not to be NaN.  On
    NaN [number] fails with a message of its own, unlike the one of a kind
    mismatch: it throws when the policy raises, and otherwise reports it
    and returns the input. *)
Theorem C4_primitive_identity (c : bool) (v : value) (fe : bool) :
  (typeof v = "string" ->
   TypeCalm.string c v fe = Result (Normal v) fe []) /\
  (typeof v = "boolean" ->
   TypeCalm.boolean c v fe = Result (Normal v) fe []) /\
  (typeof v = "number" -> self_ne v = false ->
   TypeCalm.number c v fe = Result (Normal v) fe []) /\
  (typeof v = "number" -> self_ne v = true ->
   TypeCalm.number c v fe =
     (if raising c fe
      then Result (Throw (quoted (ToString v) ++ " is a NaN")) fe []
      else Result (Normal v) fe [quoted (ToString v) ++ " is a NaN"])
   /\ quoted (ToString v) ++ " is a NaN" <> invalidType v "a `number`").
Proof.
  repeat split.
  - intro H; unfold TypeCalm.string; rewrite H; reflexivity.
  - intro H; unfold TypeCalm.boolean; rewrite H; reflexivity.
  - intros H Hn; unfold TypeCalm.number; rewrite H, Hn; reflexivity.
  - destruct v; try discriminate.
    unfold TypeCalm.number; cbn [typeof]; rewrite H0.
    change (negb (String.eqb "number" "number")) with false.
    unfold String_; cbn [convertible]; run.
    destruct (fe || negb c); reflexivity.
  - unfold quoted, invalidType; simpl; discriminate.
Qed.

(** C9, as the code has it: on an input of another kind a primitive guard
    calls [errorHandler] with the [is not] message and then with the
    [Casting] message.  With a handler configured and the flag clear both
    calls reach the handler, in that order; after them the coerced value is
    returned, unless the conversion itself throws: [String] and [Number]
    throw a [TypeError] on a value that is not convertible (an object that
    owns a [toString] property, an array that holds one), [Boolean] never
    throws.  Without a handler the first call throws and the second message
    is never produced. *)
Theorem C9_primitive_mismatch (v : value) :
  (String.eqb (typeof v) "number" = false ->
   TypeCalm.number true v false =
     Result (if convertible v then Normal (VNum (ToNumber v))
             else Throw (TypeError CannotConvert)) false
       [invalidType v "a `number`"; castingType v "a `number`"] /\
   forall fe, TypeCalm.number false v fe =
     Result (Throw (invalidType v "a `number`")) fe []) /\
  (String.eqb (typeof v) "string" = false ->
   TypeCalm.string true v false =
     Result (if convertible v then Normal (VStr (ToString v))
             else Throw (TypeError CannotConvert)) false
       [invalidType v "a `string`"; castingType v "a `string`"] /\
   forall fe, TypeCalm.string false v fe =
     Result (Throw (invalidType v "a `string`")) fe []) /\
  (String.eqb (typeof v) "boolean" = false ->
   TypeCalm.boolean true v false =
     Result (Normal (VBool (ToBoolean v))) false
       [invalidType v "a `boolean`"; castingType v "a `boolean`"] /\
   forall fe, TypeCalm.boolean false v fe =
     Result (Throw (invalidType v "a `boolean`")) fe []) /\
  (forall type,
     invalidType v type
       = "`" ++ template (JSON_stringify v) ++ "` is not " ++ type ++ "." /\
     castingType v type
       = "Casting `" ++ template (JSON_stringify v) ++ "` to " ++ type ++ ".").
Proof.
  repeat split; try reflexivity;
    unfold TypeCalm.number, TypeCalm.string, TypeCalm.boolean,
      String_, Number_;
    rewrite H; try intro fe; destruct (convertible v); run; try reflexivity;
    destruct fe; reflexivity.
Qed.


End Claims.

(** ** Claims on [array], [object] and [either] *)

Section Combinators.
Context {E : Engine}.

Lemma result_eta {A : Type} (r : result A) :
  r = Result (outcome r) (forceError r) (reported r).
Proof. destruct r; reflexivity. Qed.

Lemma array_outcome (c : bool) (g : TypeGuard) (elems : list value) (fe : bool) :
  outcome (TypeCalm.array c g (VArr elems) fe)
    = match outcome (Array_map g elems fe) with
      | Normal out => Normal (VArr out)
      | Throw e => Throw e
      end.
Proof.
  unfold TypeCalm.array, bind, ret.
  destruct (Array_map g elems fe) as [[out | e] f t]; reflexivity.
Qed.

(** While the policy raises, the loop of [object] stops at the first field
    whose guard throws. *)
Lemma object_fields_first_failure (c : bool) (pre : list (string * schema))
    (k : string) (s : schema) (post : list (string * schema)) (val : value)
    (e : string) (fe : bool) :
  raising c fe = true ->
  Forall (fun p => exists r,
            outcome (guard_of c (snd p) (get val (fst p)) true) = Normal r) pre ->
  outcome (guard_of c s (get val k) true) = Throw e ->
  forall out,
    TypeCalm.object_fields c (fields_of c (pre ++ (k, s) :: post)) val out fe
      = Result (Throw ("Object '" ++ k ++ "' property error: " ++ e)) fe [].
Proof.
  intros Hc Hpre Hk.
  induction Hpre as [| [k' s'] pre [r Hr] _ IH]; intro out; simpl; unfold bind.
  - rewrite (object_field_throws c k _ val out e fe
               (disciplined_guard_of c s _) Hk), Hc.
    reflexivity.
  - rewrite (object_field_returns c k' _ val out r fe
               (disciplined_guard_of c s' _) Hr).
    simpl. unfold fields_of in IH. rewrite IH. reflexivity.
Qed.

(** With a handler configured and the flag clear the loop visits every
    field, and every field whose guard throws is reported. *)
Lemma object_fields_reports (shape : list (string * schema)) (val : value) :
  forall out,
    reported (TypeCalm.object_fields true (fields_of true shape) val out false)
      = flat_map (field_report true val) shape /\
    forceError (TypeCalm.object_fields true (fields_of true shape) val out false)
      = false /\
    exists out',
      outcome (TypeCalm.object_fields true (fields_of true shape) val out false)
        = Normal (VObj out').
Proof.
  induction shape as [| [k s] shape IH]; intro out; simpl.
  - repeat split; eauto.
  - unfold bind, field_report at 1; cbn [fst snd].
    destruct (outcome (guard_of true s (get val k) true)) as [r | e] eqn:Hk.
    + rewrite (object_field_returns true k _ val out r false
                 (disciplined_guard_of true s _) Hk).
      specialize (IH (set_prop out k r)); unfold fields_of in *.
      destruct (TypeCalm.object_fields true _ val (set_prop out k r) false)
        as [o f t]; exact IH.
    + rewrite (object_field_throws true k _ val out e false
                 (disciplined_guard_of true s _) Hk).
      specialize (IH (set_prop out k (get val k))); unfold fields_of in *.
      cbn [raising orb negb].
      destruct (TypeCalm.object_fields true _ val
                  (set_prop out k (get val k)) false) as [o f t].
      destruct IH as (Hr & Hf & Ho); simpl in Hr; rewrite <- Hr.
      repeat split; assumption.
Qed.

Lemma object_structured (c : bool) (shape : list (string * schema))
    (val : value) (fe : bool) :
  is_null val = false -> typeof val = "object" ->
  guard_of c (SObject shape) val fe
    = TypeCalm.object_fields c (fields_of c shape) val [] fe.
Proof.
  intros Hn Ht; simpl; unfold TypeCalm.object; rewrite Hn, Ht; reflexivity.
Qed.

(** C5: without a handler, [object({a: number, b: string})] on
    [{a: "4", b: 4}], where the guards of both fields fail, throws the
    message of field [a] in the format
    [Object 'a' property error: <inner message>]; in general the call throws,
    in that format, for the first declared field whose guard fails, whatever
    the fields declared after it do. *)
Theorem C5_object_first_field (pre : list (string * schema)) (k : string)
    (s : schema) (post : list (string * schema)) (val : value) (e : string)
    (fe : bool) :
  guard_of false (SObject [("a", SNumber); ("b", SString)])
    (VObj [("a", VStr "4"); ("b", VNum 4%float)]) false
    = Result (Throw ("Object 'a' property error: `" ++ quoted "4"
                       ++ "` is not a `number`.")) false [] /\
  outcome (guard_of false SString (VNum 4%float) true)
    = Throw (invalidType (VNum 4%float) "a `string`") /\
  (is_null val = false -> typeof val = "object" ->
   Forall (fun p => exists r,
             outcome (guard_of false (snd p) (get val (fst p)) true) = Normal r)
          pre ->
   outcome (guard_of false s (get val k) true) = Throw e ->
   guard_of false (SObject (pre ++ (k, s) :: post)) val fe
     = Result (Throw ("Object '" ++ k ++ "' property error: " ++ e)) fe []).
Proof.
  split; [reflexivity | split; [reflexivity |]].
  intros Hn Ht Hpre Hk. rewrite (object_structured _ _ _ _ Hn Ht).
  apply object_fields_first_failure; auto. destruct fe; reflexivity.
Qed.

(** C8, as the code has it: on a structured input, while the policy raises
    (no handler, or the flag set) [object(shape)] hands nothing to the
    handler, so the one throw that ends the call is its only report; with a
    handler configured and the flag clear the call returns an object and
    the handler is called once for every declared field whose guard fails,
    in declared order. *)
Theorem C8_object_reports (c : bool) (shape : list (string * schema))
    (val : value) (fe : bool) :
  is_null val = false -> typeof val = "object" ->
  (raising c fe = true ->
   reported (guard_of c (SObject shape) val fe) = []) /\
  reported (guard_of true (SObject shape) val false)
    = flat_map (field_report true val) shape /\
  exists out,
    outcome (guard_of true (SObject shape) val false) = Normal (VObj out).
Proof.
  intros Hn Ht; split.
  - apply (disciplined_guard_of c (SObject shape) val).
  - rewrite (object_structured _ _ _ _ Hn Ht).
    destruct (object_fields_reports shape val []) as (Hr & _ & Ho); auto.
Qed.

(** C6: [array(g)([])] returns [[]]; [array(g)([v1, v2])] returns
    [[g(v1), g(v2)]] when both calls return; without a handler, an array
    whose first failing element is [x] throws the failure of [x], and the
    elements after [x] play no part in the result. *)
Theorem C6_array_elements (c : bool) (s : schema) (fe : bool)
    (v1 v2 r1 r2 : value) (pre : list value) (x : value) (post : list value)
    (e : string) :
  guard_of c (SArray s) (VArr []) fe = Result (Normal (VArr [])) fe [] /\
  (outcome (guard_of c s v1 fe) = Normal r1 ->
   outcome (guard_of c s v2 fe) = Normal r2 ->
   outcome (guard_of c (SArray s) (VArr [v1; v2]) fe) = Normal (VArr [r1; r2])) /\
  (Forall (fun v => exists r, outcome (guard_of false s v fe) = Normal r) pre ->
   outcome (guard_of false s x fe) = Throw e ->
   guard_of false (SArray s) (VArr (pre ++ x :: post)) fe
     = Result (Throw e) fe [] /\
   guard_of false (SArray s) (VArr (pre ++ x :: post)) fe
     = guard_of false (SArray s) (VArr (pre ++ [x])) fe).
Proof.
  change (guard_of c (SArray s)) with (TypeCalm.array c (guard_of c s)).
  change (guard_of false (SArray s))
    with (TypeCalm.array false (guard_of false s)).
  split; [reflexivity | split].
  - intros H1 H2; rewrite array_outcome.
    destruct (Array_map_returns c (guard_of c s) fe [v1; v2] [r1; r2]
                (disciplined_guard_of c s)) as [Ho _];
      [repeat constructor; auto |].
    rewrite Ho; reflexivity.
  - intros Hpre Hx.
    destruct (Array_map_throws false (guard_of false s) fe pre x post e
                (disciplined_guard_of false s) Hpre Hx) as [Ho Heq].
    split.
    + destruct (disciplined_array false _ (disciplined_guard_of false s)
                  (VArr (pre ++ x :: post))) as [Hf Hr].
      rewrite (result_eta (TypeCalm.array _ _ _ _)), Hf, Hr, array_outcome, Ho
        by (destruct fe; reflexivity).
      reflexivity.
    + unfold TypeCalm.array, bind; rewrite Heq; reflexivity.
Qed.

(** C7: whatever [either(a, b)(v)] returns is [v] itself; it returns when a
    branch returns under the flag, and also, with a handler configured and
    the flag clear, when both branches throw (both failures are then
    reported). *)
Theorem C7_either_returns_input (c : bool) (a b : schema) (v : value)
    (fe : bool) :
  (forall r, outcome (guard_of c (SEither a b) v fe) = Normal r -> r = v) /\
  (forall r, outcome (guard_of c a v true) = Normal r ->
     guard_of c (SEither a b) v fe = Result (Normal v) fe []) /\
  (forall e r, outcome (guard_of c a v true) = Throw e ->
     outcome (guard_of c b v true) = Normal r ->
     guard_of c (SEither a b) v fe = Result (Normal v) fe []) /\
  (forall e1 e2 : string, outcome (guard_of true a v true) = Throw e1 ->
     outcome (guard_of true b v true) = Throw e2 ->
     guard_of true (SEither a b) v false
       = Result (Normal v) false [Error_toString e1; Error_toString e2]).
Proof.
  assert (Hu := fun c' fe' => either_unfold c' (guard_of c' a) (guard_of c' b) v fe'
                    (disciplined_guard_of c' a) (disciplined_guard_of c' b)).
  cbn [guard_of]; repeat split.
  - intro r; rewrite Hu.
    destruct (outcome (guard_of c a v true)); [| destruct (outcome (guard_of c b v true))];
      try destruct (raising c fe); simpl; congruence.
  - intros r Ha; rewrite Hu, Ha; reflexivity.
  - intros e r Ha Hb; rewrite Hu, Ha, Hb; reflexivity.
  - intros e1 e2 Ha Hb; rewrite Hu, Ha, Hb; reflexivity.
Qed.

(** C2, as the code has it: without a handler and with the flag clear,
    when both branches of [either(a, b)] throw under the flag the call throws
    once, with the text of the failure of [a] ([Error: ] and its message);
    the failure of [b] is not reported. *)
Theorem C2_either_first_failure (a b : schema) (v : value) (ma mb : string) :
  outcome (guard_of false a v true) = Throw ma ->
  outcome (guard_of false b v true) = Throw mb ->
  guard_of false (SEither a b) v false
    = Result (Throw (Error_toString ma)) false [].
Proof.
  intros Ha Hb; cbn [guard_of].
  rewrite (either_unfold false _ _ v false
             (disciplined_guard_of false a) (disciplined_guard_of false b)),
    Ha, Hb.
  reflexivity.
Qed.

End Combinators.

(** ** Occurrence of a text in a message *)

Lemma prefix_app (n s : string) :
  String.prefix n s = true <-> exists post, s = n ++ post.
Proof.
  revert s; induction n as [| a n IH]; intro s.
  - split; [exists s; reflexivity | intros _; destruct s; reflexivity].
  - destruct s as [| b s]; simpl;
      [split; [discriminate | intros [p Hp]; discriminate] |].
    destruct (Ascii.ascii_dec a b) as [-> | Hab].
    + rewrite IH; split; intros [p Hp]; exists p; [subst | inversion Hp];
        reflexivity.
    + split; [discriminate | intros [p Hp]; inversion Hp; congruence].
Qed.

Lemma contains_occurs (s needle : string) :
  contains s needle = true <-> exists pre post, s = pre ++ needle ++ post.
Proof.
  induction s as [| a s IH]; cbn [contains].
  - destruct (String.prefix needle "") eqn:Hp.
    + apply prefix_app in Hp as [post Hp].
      split; [exists "", post; exact Hp | intros _; reflexivity].
    + split; [discriminate |]. intros (pre & post & H).
      destruct pre; [| discriminate]. simpl in H.
      assert (String.prefix needle "" = true)
        by (apply prefix_app; exists post; exact H).
      congruence.
  - destruct (String.prefix needle (String a s)) eqn:Hp.
    + apply prefix_app in Hp as [post Hp].
      split; [exists "", post; exact Hp | intros _; reflexivity].
    + rewrite IH; split; intros (pre & post & H).
      * exists (String a pre), post; simpl; rewrite H; reflexivity.
      * destruct pre as [| b pre]; simpl in H.
        -- assert (String.prefix needle (String a s) = true)
             by (apply prefix_app; exists post; exact H).
           congruence.
        -- inversion H; subst; exists pre, post; reflexivity.
Qed.

(** ** Closed instances *)

Section Examples.
#[local] Existing Instance sample_engine.

Lemma C4_witness :
  TypeCalm.string false (VStr "4") false = Result (Normal (VStr "4")) false [] /\
  TypeCalm.boolean false (VBool true) false
    = Result (Normal (VBool true)) false [] /\
  TypeCalm.number false (VNum 4%float) false
    = Result (Normal (VNum 4%float)) false [] /\
  TypeCalm.number false (VNum nan) false
    = Result (Throw (quoted "NaN" ++ " is a NaN")) false [] /\
  TypeCalm.number true (VNum nan) false
    = Result (Normal (VNum nan)) false [quoted "NaN" ++ " is a NaN"].
Proof.
  refine (conj _ (conj _ (conj _ (conj _ _)))).
  - exact (proj1 (C4_primitive_identity false (VStr "4") false) eq_refl).
  - exact (proj1 (proj2 (C4_primitive_identity false (VBool true) false))
             eq_refl).
  - exact (proj1 (proj2 (proj2 (C4_primitive_identity false (VNum 4%float) false)))
             eq_refl eq_refl).
  - exact (proj1 (proj2 (proj2 (proj2
             (C4_primitive_identity false (VNum nan) false))) eq_refl eq_refl)).
  - exact (proj1 (proj2 (proj2 (proj2
             (C4_primitive_identity true (VNum nan) false))) eq_refl eq_refl)).
Defined.

Lemma C9_witness :
  String.eqb (typeof (VStr "12")) "number" = false /\
  TypeCalm.number true (VStr "12") false
    = Result (Normal (VNum 12%float)) false
        ["`" ++ quoted "12" ++ "` is not a `number`.";
         "Casting `" ++ quoted "12" ++ "` to a `number`."] /\
  TypeCalm.number false (VStr "12") false
    = Result (Throw ("`" ++ quoted "12" ++ "` is not a `number`.")) false [].
Proof.
  split; [reflexivity |].
  destruct (proj1 (C9_primitive_mismatch (VStr "12")) eq_refl) as [Hc Hd].
  split; [exact Hc | exact (Hd false)].
Defined.

(** C9 fails as stated: with a handler configured, [string] and [number]
    on an object that owns a [toString] property, as
    [JSON.parse('{"toString":1}')] does, report the two messages and then
    throw the [TypeError] of the conversion; no coerced value is returned. *)
Lemma C9_counterexample :
  String.eqb (typeof (VObj [("toString", VNum 1%float)])) "string" = false /\
  TypeCalm.string true (VObj [("toString", VNum 1%float)]) false
    = Result (Throw (TypeError "Cannot convert object to primitive value"))
        false
        ["`{" ++ quoted "toString" ++ ":1}` is not a `string`.";
         "Casting `{" ++ quoted "toString" ++ ":1}` to a `string`."] /\
  TypeCalm.number true (VObj [("toString", VNum 1%float)]) false
    = Result (Throw (TypeError "Cannot convert object to primitive value"))
        false
        ["`{" ++ quoted "toString" ++ ":1}` is not a `number`.";
         "Casting `{" ++ quoted "toString" ++ ":1}` to a `number`."].
Proof. repeat split. Qed.


Lemma C5_witness :
  is_null (VObj [("a", VStr "4"); ("b", VNum 4%float)]) = false /\
  typeof (VObj [("a", VStr "4"); ("b", VNum 4%float)]) = "object" /\
  outcome (guard_of false SNumber
             (get (VObj [("a", VStr "4"); ("b", VNum 4%float)]) "a") true)
    = Throw ("`" ++ quoted "4" ++ "` is not a `number`.") /\
  guard_of false (SObject ([] ++ ("a", SNumber) :: [("b", SString)]))
    (VObj [("a", VStr "4"); ("b", VNum 4%float)]) false
    = Result (Throw ("Object 'a' property error: "
                       ++ ("`" ++ quoted "4" ++ "` is not a `number`.")))
        false [].
Proof.
  refine (conj eq_refl (conj eq_refl (conj eq_refl _))).
  exact (proj2 (proj2 (C5_object_first_field [] "a" SNumber [("b", SString)]
                  (VObj [("a", VStr "4"); ("b", VNum 4%float)])
                  ("`" ++ quoted "4" ++ "` is not a `number`.") false))
           eq_refl eq_refl (Forall_nil _) eq_refl).
Defined.

(** C8 fails as stated: with a handler configured, one call of
    [object({a: number, b: string})] on [{a: "4", b: 4}] calls the handler
    twice. *)
Lemma C8_counterexample :
  guard_of true (SObject [("a", SNumber); ("b", SString)])
    (VObj [("a", VStr "4"); ("b", VNum 4%float)]) false
    = Result (Normal (VObj [("a", VStr "4"); ("b", VNum 4%float)])) false
        ["Object 'a' property error: `" ++ quoted "4" ++ "` is not a `number`.";
         "Object 'b' property error: `4` is not a `string`."] /\
  length (reported (guard_of true (SObject [("a", SNumber); ("b", SString)])
                      (VObj [("a", VStr "4"); ("b", VNum 4%float)]) false)) = 2.
Proof. split; reflexivity. Qed.

Lemma C8_witness :
  is_null (VObj [("a", VStr "4"); ("b", VNum 4%float)]) = false /\
  typeof (VObj [("a", VStr "4"); ("b", VNum 4%float)]) = "object" /\
  reported (guard_of false (SObject [("a", SNumber); ("b", SString)])
              (VObj [("a", VStr "4"); ("b", VNum 4%float)]) false) = [] /\
  reported (guard_of true (SObject [("a", SNumber); ("b", SString)])
              (VObj [("a", VStr "4"); ("b", VNum 4%float)]) false)
    = ["Object 'a' property error: `" ++ quoted "4" ++ "` is not a `number`.";
       "Object 'b' property error: `4` is not a `string`."].
Proof.
  destruct (C8_object_reports false [("a", SNumber); ("b", SString)]
              (VObj [("a", VStr "4"); ("b", VNum 4%float)]) false
              eq_refl eq_refl) as (Hd & Hc & _).
  exact (conj eq_refl (conj eq_refl (conj (Hd eq_refl) Hc))).
Defined.

Lemma C6_witness :
  outcome (guard_of false SNumber (VNum 1%float) false) = Normal (VNum 1%float) /\
  outcome (guard_of false SNumber (VNum 2%float) false) = Normal (VNum 2%float) /\
  outcome (guard_of false (SArray SNumber) (VArr [VNum 1%float; VNum 2%float]) false)
    = Normal (VArr [VNum 1%float; VNum 2%float]) /\
  outcome (guard_of false SNumber (VStr "2") false)
    = Throw ("`" ++ quoted "2" ++ "` is not a `number`.") /\
  guard_of false (SArray SNumber)
    (VArr ([VNum 1%float] ++ VStr "2" :: [VBool true])) false
    = Result (Throw ("`" ++ quoted "2" ++ "` is not a `number`.")) false [].
Proof.
  pose proof (C6_array_elements false SNumber false (VNum 1%float) (VNum 2%float)
                (VNum 1%float) (VNum 2%float) [VNum 1%float] (VStr "2")
                [VBool true] ("`" ++ quoted "2" ++ "` is not a `number`."))
    as (_ & H2 & H3).
  refine (conj eq_refl (conj eq_refl (conj _ (conj eq_refl _)))).
  - exact (H2 eq_refl eq_refl).
  - apply H3; [| reflexivity].
    constructor; [exists (VNum 1%float); reflexivity | constructor].
Defined.

Lemma C7_witness :
  outcome (guard_of true SNumber (VStr "4") true)
    = Throw ("`" ++ quoted "4" ++ "` is not a `number`.") /\
  outcome (guard_of true SString (VStr "4") true) = Normal (VStr "4") /\
  guard_of true (SEither SNumber SString) (VStr "4") false
    = Result (Normal (VStr "4")) false [] /\
  guard_of true (SEither SNumber SString) (VBool true) false
    = Result (Normal (VBool true)) false
        ["Error: `true` is not a `number`."; "Error: `true` is not a `string`."].
Proof.
  refine (conj eq_refl (conj eq_refl (conj _ _))).
  - exact (proj1 (proj2 (proj2
             (C7_either_returns_input true SNumber SString (VStr "4") false)))
             _ _ eq_refl eq_refl).
  - exact (proj2 (proj2 (proj2
             (C7_either_returns_input true SNumber SString (VBool true) false)))
             _ _ eq_refl eq_refl).
Defined.

(** C2 fails as stated: [either(number, string)(true)] without a handler
    throws the text of the failure of [number] alone; the message of the
    failure of [string] does not occur in it. *)
Lemma C2_counterexample :
  outcome (guard_of false SNumber (VBool true) true)
    = Throw "`true` is not a `number`." /\
  outcome (guard_of false SString (VBool true) true)
    = Throw "`true` is not a `string`." /\
  guard_of false (SEither SNumber SString) (VBool true) false
    = Result (Throw "Error: `true` is not a `number`.") false [] /\
  contains "Error: `true` is not a `number`." "`true` is not a `number`." = true /\
  contains "Error: `true` is not a `number`." "`true` is not a `string`." = false.
Proof. repeat split. Qed.

Lemma C2_witness :
  outcome (guard_of false SNumber (VBool true) true)
    = Throw "`true` is not a `number`." /\
  outcome (guard_of false SString (VBool true) true)
    = Throw "`true` is not a `string`." /\
  guard_of false (SEither SNumber SString) (VBool true) false
    = Result (Throw "Error: `true` is not a `number`.") false [].
Proof.
  refine (conj eq_refl (conj eq_refl _)).
  exact (C2_either_first_failure SNumber SString (VBool true) _ _ eq_refl eq_refl).
Defined.

(** ** The tests of the repository

    The top-level guards are those of [TypeCalm()], a factory without a
    handler. *)

Example test_number_passes :
  outcome (guard_of false SNumber (VNum 4%float) false) = Normal (VNum 4%float).
Proof. reflexivity. Qed.

Example test_number_throws :
  map (fun v => throws_with (guard_of false SNumber v false) "")
    [VUndefined; VStr "4"; VBool true; VObj []; VArr [VNum 4%float]]
  = [true; true; true; true; true].
Proof. reflexivity. Qed.

Example test_object_passes :
  outcome (guard_of false nested_shape testValue false) = Normal testValue.
Proof. reflexivity. Qed.

Example test_object_fails :
  throws_with (guard_of false nested_shape failingTestValue false)
    ("Object 'obj' property error: Object 'num' property error: `"
       ++ quoted "4" ++ "` is not a `number`.") = true.
Proof. reflexivity. Qed.

Example test_either_passes :
  outcome (guard_of false (SEither SNumber SString) (VNum 4%float) false)
    = Normal (VNum 4%float) /\
  outcome (guard_of false (SEither SNumber SString) (VStr "4") false)
    = Normal (VStr "4").
Proof. split; reflexivity. Qed.

Example test_either_nesting :
  outcome (guard_of false nested_union (VNum 4%float) false)
    = Normal (VNum 4%float) /\
  outcome (guard_of false nested_union (VArr [VNum 4%float]) false)
    = Normal (VArr [VNum 4%float]) /\
  outcome (guard_of false nested_union (VStr "4") false) = Normal (VStr "4") /\
  throws_with (guard_of false nested_union (VArr [VStr "4"]) false) "" = true /\
  outcome (guard_of false nested_union (VBool true) false) = Normal (VBool true).
Proof. repeat split. Qed.

End Examples.

(** * Further properties of the engine *)

(** ** With a handler and the flag clear only a conversion throws *)

Section ValueInduction.
Variable P : value -> Prop.
Hypothesis HUndefined : P VUndefined.
Hypothesis HNull : P VNull.
Hypothesis HBool : forall b, P (VBool b).
Hypothesis HNum : forall n, P (VNum n).
Hypothesis HStr : forall s, P (VStr s).
Hypothesis HArr : forall elems, Forall P elems -> P (VArr elems).
Hypothesis HObj :
  forall props, Forall (fun p => P (snd p)) props -> P (VObj props).

Fixpoint value_induction (v : value) : P v :=
  match v with
  | VUndefined => HUndefined
  | VNull => HNull
  | VBool b => HBool b
  | VNum n => HNum n
  | VStr s => HStr s
  | VArr elems =>
      HArr elems
        ((fix all (l : list value) : Forall P l :=
            match l with
            | [] => Forall_nil _
            | x :: rest => Forall_cons x (value_induction x) (all rest)
            end) elems)
  | VObj props =>
      HObj props
        ((fix all (l : list (string * value))
            : Forall (fun p => P (snd p)) l :=
            match l with
            | [] => Forall_nil _
            | p :: rest => Forall_cons p (value_induction (snd p)) (all rest)
            end) props)
  end.

End ValueInduction.

Section Lenient.
Context {E : Engine}.

Lemma all_convertible_convertible (v : value) :
  all_convertible v = true -> convertible v = true.
Proof.
  induction v using value_induction; try reflexivity; cbn [all_convertible convertible].
  - intro Hall; apply forallb_forall; intros x Hx.
    rewrite forallb_forall in Hall.
    exact (proj1 (Forall_forall _ elems) H x Hx (Hall x Hx)).
  - intro Hall; apply andb_prop in Hall; tauto.
Qed.

Lemma all_convertible_get (v : value) (k : string) :
  all_convertible v = true -> all_convertible (get v k) = true.
Proof.
  destruct v; try reflexivity; cbn [all_convertible get].
  - intro Hall; destruct (String.eqb k "length"); [reflexivity |].
    destruct (array_index k) as [i |]; [| reflexivity].
    rewrite forallb_forall in Hall.
    destruct (nth_in_or_default i elems VUndefined) as [Hin | ->];
      [exact (Hall _ Hin) | reflexivity].
  - intro Hall; apply andb_prop in Hall; destruct Hall as [_ Hall].
    induction props as [| [k' x] props IH]; [reflexivity |].
    cbn [forallb snd] in Hall; apply andb_prop in Hall; destruct Hall as [Hx Hall].
    cbn [assoc]; destruct (String.eqb k' k); [exact Hx | exact (IH Hall)].
Qed.

Lemma lenient_ret {A : Type} (a : A) : lenient (ret a).
Proof. split; [reflexivity | exists a; reflexivity]. Qed.

Lemma lenient_bind {A B : Type} (m : M A) (k : A -> M B) :
  lenient m -> (forall a, lenient (k a)) -> lenient (bind m k).
Proof.
  intros [Hf [a Ha]] Hk; unfold lenient, bind.
  destruct (m false) as [o f t]; simpl in *; subst o f.
  destruct (Hk a) as [Hf' [b Hb]].
  destruct (k a false) as [o f t']; simpl in *; subst o f.
  split; [reflexivity | exists b; reflexivity].
Qed.

Lemma lenient_errorHandler (str : string) :
  lenient (TypeCalm.errorHandler true str).
Proof. split; [reflexivity | exists tt; reflexivity]. Qed.

Lemma lenient_when (b : bool) (m : M unit) : lenient m -> lenient (when b m).
Proof. destruct b; simpl; auto using lenient_ret. Qed.

Lemma lenient_String_ (val : value) :
  convertible val = true -> lenient (String_ val).
Proof. intro H; unfold String_; rewrite H; apply lenient_ret. Qed.

Lemma lenient_Number_ (val : value) :
  convertible val = true -> lenient (Number_ val).
Proof. intro H; unfold Number_; rewrite H; apply lenient_ret. Qed.

Lemma lenient_Array_map (g : TypeGuard) (elems : list value) :
  Forall (fun v => lenient (g v)) elems -> lenient (Array_map g elems).
Proof.
  induction 1; simpl; auto 6 using lenient_ret, lenient_bind.
Qed.

Lemma lenient_object_field (k : string) (g : TypeGuard) (val : value)
    (out : list (string * value)) :
  disciplined true (g (get val k)) ->
  lenient (TypeCalm.object_field true k g val out).
Proof.
  intro Hg; unfold lenient.
  rewrite (object_field_unfold true k g val out false Hg).
  destruct (outcome (g (get val k) true)); simpl; eauto.
Qed.

Lemma lenient_object_fields (shape : list (string * schema)) (val : value) :
  forall out,
    lenient (TypeCalm.object_fields true (fields_of true shape) val out).
Proof.
  induction shape as [| [k s] shape IH]; intro out; simpl.
  - apply lenient_ret.
  - apply lenient_bind; [| intro; apply IH].
    apply lenient_object_field, disciplined_guard_of.
Qed.

Lemma lenient_recordOf_fields (g : TypeGuard) (val : value)
    (keys : list string) :
  Forall (fun k => lenient (g (get val k))) keys ->
  forall out, lenient (TypeCalm.recordOf_fields g val keys out).
Proof.
  induction 1; intro out; simpl; auto using lenient_ret, lenient_bind.
Qed.

Lemma lenient_either (g1 g2 : TypeGuard) (v : value) :
  disciplined_guard true g1 -> disciplined_guard true g2 ->
  lenient (TypeCalm.either true g1 g2 v).
Proof.
  intros H1 H2; unfold lenient.
  rewrite (either_unfold true g1 g2 v false H1 H2).
  destruct (outcome (g1 v true)); [| destruct (outcome (g2 v true))];
    simpl; eauto.
Qed.

Create HintDb lenience.

#[local] Hint Resolve lenient_ret lenient_bind lenient_errorHandler
  lenient_when lenient_String_ lenient_Number_ : lenience.

Ltac lenience :=
  repeat (intros;
          match goal with
          | |- lenient (bind _ _) => apply lenient_bind
          | |- lenient (if ?b then _ else _) => destruct b
          | |- lenient (match ?v with _ => _ end) => destruct v
          | |- lenient _ => solve [auto with lenience]
          end).

(** With a handler configured and the flag clear, a guard throws only when
    a conversion does: the failures of the fields of [object] and of the
    branches of [either] are caught and reported. *)
Lemma lenient_guard_of (s : schema) (v : value) :
  all_convertible v = true -> lenient (guard_of true s v).
Proof.
  revert v; induction s using schema_induction; intros v Hall;
    pose proof (all_convertible_convertible v Hall) as Hc; cbn [guard_of].
  - unfold TypeCalm.number; lenience.
  - unfold TypeCalm.string; lenience.
  - unfold TypeCalm.boolean; lenience.
  - unfold TypeCalm.array.
    assert (Hwrap : lenient (Array_map (guard_of true s) [v]))
      by (apply lenient_Array_map; repeat constructor; apply IHs, Hall).
    destruct v; lenience.
    apply lenient_Array_map, Forall_forall; intros x Hx; apply IHs.
    cbn [all_convertible] in Hall; rewrite forallb_forall in Hall; auto.
  - unfold TypeCalm.object.
    destruct (is_null v || negb (String.eqb (typeof v) "object"));
      [lenience | apply lenient_object_fields].
  - unfold TypeCalm.recordOf.
    destruct (is_null v || negb (String.eqb (typeof v) "object"));
      [lenience |].
    apply lenient_recordOf_fields, Forall_forall; intros k _.
    apply IHs, all_convertible_get, Hall.
  - unfold TypeCalm.nullable; lenience.
  - unfold TypeCalm.optional; lenience.
  - apply lenient_either; apply disciplined_guard_of.
  - unfold TypeCalm.stringBoolean; lenience.
  - apply lenient_ret.
  - unfold TypeCalm.toNumber; lenience.
  - unfold TypeCalm.toString; lenience.
  - unfold TypeCalm.oneOf; lenience.
  - unfold TypeCalm.enumMember; lenience.
  - apply IHs, Hall.
Qed.

End Lenient.

(** ** While the policy raises, the configuration does not matter *)

Section Agreement.
Context {E : Engine}.
Variables c c' : bool.

Lemma agree_ret {A : Type} (a : A) : agree c c' (ret a) (ret a).
Proof. intros fe fe' _ _; repeat split. Qed.

Lemma agree_bind {A B : Type} (m m' : M A) (k k' : A -> M B) :
  agree c c' m m' -> (forall a, agree c c' (k a) (k' a)) ->
  agree c c' (bind m k) (bind m' k').
Proof.
  intros Hm Hk fe fe' Hfe Hfe'; unfold bind.
  destruct (Hm fe fe' Hfe Hfe') as (Ho & Hf & Hf').
  destruct (m fe) as [o f t], (m' fe') as [o' f' t']; simpl in *;
    subst o' f f'.
  destruct o as [a | e]; [| repeat split].
  destruct (Hk a fe fe' Hfe Hfe') as (Ho & Hf & Hf').
  destruct (k a fe) as [o f t1], (k' a fe') as [o' f' t1']; simpl in *;
    subst o' f f'; repeat split.
Qed.

Lemma agree_errorHandler (str : string) :
  agree c c' (TypeCalm.errorHandler c str) (TypeCalm.errorHandler c' str).
Proof.
  intros fe fe' Hfe Hfe'; run; rewrite Hfe, Hfe'; repeat split.
Qed.

Lemma agree_throw {A : Type} (e : exception) :
  agree c c' (throw (A := A) e) (throw e).
Proof. intros fe fe' _ _; repeat split. Qed.

Lemma agree_String_ (val : value) : agree c c' (String_ val) (String_ val).
Proof.
  unfold String_; destruct (convertible val);
    [apply agree_ret | apply agree_throw].
Qed.

Lemma agree_Number_ (val : value) : agree c c' (Number_ val) (Number_ val).
Proof.
  unfold Number_; destruct (convertible val);
    [apply agree_ret | apply agree_throw].
Qed.

Lemma agree_when (b : bool) (m m' : M unit) :
  agree c c' m m' -> agree c c' (when b m) (when b m').
Proof. destruct b; simpl; auto using agree_ret. Qed.

Lemma agree_Array_map (g g' : TypeGuard) (elems : list value) :
  (forall v, agree c c' (g v) (g' v)) ->
  agree c c' (Array_map g elems) (Array_map g' elems).
Proof.
  intro Hg; induction elems; simpl; auto 6 using agree_ret, agree_bind.
Qed.

Lemma agree_recordOf_fields (g g' : TypeGuard) (val : value)
    (keys : list string) :
  (forall v, agree c c' (g v) (g' v)) ->
  forall out,
    agree c c' (TypeCalm.recordOf_fields g val keys out)
               (TypeCalm.recordOf_fields g' val keys out).
Proof.
  intro Hg; induction keys; intro out; simpl; auto using agree_ret, agree_bind.
Qed.

Lemma raising_set (b : bool) : raising b true = true.
Proof. reflexivity. Qed.

Lemma agree_object_fields (shape : list (string * schema)) (val : value) :
  Forall (fun p => forall v,
            agree c c' (guard_of c (snd p) v) (guard_of c' (snd p) v)) shape ->
  forall out,
    agree c c' (TypeCalm.object_fields c (fields_of c shape) val out)
               (TypeCalm.object_fields c' (fields_of c' shape) val out).
Proof.
  induction 1 as [| [k s] shape Hs _ IH]; intro out; simpl.
  - apply agree_ret.
  - apply agree_bind; [| intro; apply IH].
    intros fe fe' Hfe Hfe'; cbn [fst snd].
    rewrite (object_field_unfold c k _ val out fe (disciplined_guard_of c s _)),
      (object_field_unfold c' k _ val out fe' (disciplined_guard_of c' s _)).
    destruct (Hs (get val k) true true (raising_set c) (raising_set c'))
      as (Ho & _ & _).
    cbn [snd] in Ho; rewrite <- Ho, Hfe, Hfe'.
    destruct (outcome (guard_of c s (get val k) true)); repeat split.
Qed.

Lemma agree_either (a b : schema) (v : value) :
  agree c c' (guard_of c a v) (guard_of c' a v) ->
  agree c c' (guard_of c b v) (guard_of c' b v) ->
  agree c c' (TypeCalm.either c (guard_of c a) (guard_of c b) v)
             (TypeCalm.either c' (guard_of c' a) (guard_of c' b) v).
Proof.
  intros Ha Hb fe fe' Hfe Hfe'.
  rewrite (either_unfold c _ _ v fe
             (disciplined_guard_of c a) (disciplined_guard_of c b)),
    (either_unfold c' _ _ v fe'
       (disciplined_guard_of c' a) (disciplined_guard_of c' b)).
  destruct (Ha true true (raising_set c) (raising_set c')) as (Hoa & _ & _).
  destruct (Hb true true (raising_set c) (raising_set c')) as (Hob & _ & _).
  rewrite <- Hoa, <- Hob, Hfe, Hfe'.
  destruct (outcome (guard_of c a v true));
    [| destruct (outcome (guard_of c b v true))]; repeat split.
Qed.

Create HintDb agreement.

#[local] Hint Resolve agree_ret agree_bind agree_errorHandler agree_when
  agree_Array_map agree_String_ agree_Number_ : agreement.

Ltac agreement :=
  repeat (intros;
          match goal with
          | |- agree _ _ (bind _ _) (bind _ _) => apply agree_bind
          | |- agree _ _ (if ?b then _ else _) _ => destruct b
          | |- agree _ _ (match ?v with _ => _ end) _ => destruct v
          | |- agree _ _ _ _ => solve [auto with agreement]
          end).

Lemma agree_guard_of (s : schema) (v : value) :
  agree c c' (guard_of c s v) (guard_of c' s v).
Proof.
  revert v; induction s using schema_induction; intro v; cbn [guard_of].
  - unfold TypeCalm.number; agreement.
  - unfold TypeCalm.string; agreement.
  - unfold TypeCalm.boolean; agreement.
  - unfold TypeCalm.array; agreement.
  - unfold TypeCalm.object.
    destruct (is_null v || negb (String.eqb (typeof v) "object"));
      [agreement | apply agree_object_fields; assumption].
  - unfold TypeCalm.recordOf.
    destruct (is_null v || negb (String.eqb (typeof v) "object"));
      [agreement | apply agree_recordOf_fields; assumption].
  - unfold TypeCalm.nullable; agreement.
  - unfold TypeCalm.optional; agreement.
  - apply agree_either; auto.
  - unfold TypeCalm.stringBoolean; agreement.
  - apply agree_ret.
  - unfold TypeCalm.toNumber; agreement.
  - unfold TypeCalm.toString; agreement.
  - unfold TypeCalm.oneOf; agreement.
  - unfold TypeCalm.enumMember; agreement.
  - apply IHs.
Qed.

End Agreement.

(** ** What a guard lets through *)

Section Acceptance.
Context {E : Engine}.

(** X1: while the policy raises (the flag is set, or no handler is
    configured) no guard built from the factory hands anything to the
    handler, however deep the failure is. *)
Theorem X1_raising_reports_nothing (c : bool) (s : schema) (v : value)
    (fe : bool) :
  raising c fe = true -> reported (guard_of c s v fe) = [].
Proof. intro H; apply (disciplined_guard_of c s v), H. Qed.

(** X2: with a handler configured and the flag clear, a guard built from
    the factory throws only when a conversion to a primitive does.  On a
    value in which no object owns a [toString] property, and with
    convertible permitted values, every call returns a value and leaves
    the flag clear: every failure of validation is reported to the handler
    instead. *)
Theorem X2_custom_mode_returns (s : schema) (v : value) :
  permitted_convertible s = true ->
  all_convertible v = true ->
  (exists r, outcome (guard_of true s v false) = Normal r) /\
  forceError (guard_of true s v false) = false.
Proof.
  intros _ Hall; destruct (lenient_guard_of s v Hall) as [Hf Hr]; split;
    assumption.
Qed.

(** X3: while the policy raises, the completion of a guard depends neither
    on whether a handler is configured nor on the flag: a guard that runs
    under another guard's flag fails exactly as the top-level guard does,
    with the same message. *)
Theorem X3_raising_completion (c c' : bool) (s : schema) (v : value)
    (fe fe' : bool) :
  raising c fe = true -> raising c' fe' = true ->
  outcome (guard_of c s v fe) = outcome (guard_of c' s v fe').
Proof. intros H H'; apply (agree_guard_of c c' s v fe fe' H H'). Qed.

Lemma accepts_under_flag (c : bool) (s : schema) (v : value) :
  accepts s v <-> exists r, outcome (guard_of c s v true) = Normal r.
Proof.
  unfold accepts.
  destruct (agree_guard_of false c s v false true eq_refl eq_refl) as (Ho & _).
  rewrite Ho; reflexivity.
Qed.

(** X4: in either reporting mode and under any flag, [is(v, g)] is [true]
    exactly when the top-level guard of a factory without a handler returns
    on [v]. *)
Theorem X4_is_top_level (c : bool) (s : schema) (v : value) (fe : bool) :
  outcome (TypeCalm.is_ v (guard_of c s) fe) = Normal true <-> accepts s v.
Proof.
  rewrite (accepts_under_flag c), (is_unfold c v _ fe (disciplined_guard_of c s)).
  cbn [outcome].
  destruct (outcome (guard_of c s v true)) as [r | e]; split; intro H;
    try discriminate; eauto.
  destruct H as [r H]; discriminate.
Qed.

Lemma accepts_either (a b : schema) (v : value) :
  accepts (SEither a b) v <-> accepts a v \/ accepts b v.
Proof.
  rewrite (accepts_under_flag false a), (accepts_under_flag false b).
  unfold accepts; cbn [guard_of].
  rewrite (either_unfold false _ _ v false
             (disciplined_guard_of false a) (disciplined_guard_of false b)).
  destruct (outcome (guard_of false a v true)) as [ra | ea];
    [| destruct (outcome (guard_of false b v true)) as [rb | eb]];
    cbn [raising orb negb outcome]; split; intro H; eauto;
    try (destruct H as [r H]; discriminate).
  destruct H as [[r H] | [r H]]; discriminate.
Qed.

(** X5: a union lets through what either branch lets through; so the
    order of the branches and the nesting of unions do not change what is
    let through. *)
Theorem X5_either_union (a b d : schema) (v : value) :
  (accepts (SEither a b) v <-> accepts a v \/ accepts b v) /\
  (accepts (SEither a b) v <-> accepts (SEither b a) v) /\
  (accepts (SEither a (SEither b d)) v <-> accepts (SEither (SEither a b) d) v).
Proof.
  repeat split; rewrite ?accepts_either; tauto.
Qed.

Lemma accepts_nullable (s : schema) (v : value) :
  accepts (SNullable s) v <-> v = VNull \/ accepts s v.
Proof.
  unfold accepts; cbn [guard_of]; unfold TypeCalm.nullable.
  destruct v; cbn [is_null]; split; intro H; eauto;
    try (destruct H as [H | H]; [discriminate | exact H]).
  exists VNull; reflexivity.
Qed.

Lemma accepts_optional (s : schema) (v : value) :
  accepts (SOptional s) v <-> v = VUndefined \/ accepts s v.
Proof.
  unfold accepts; cbn [guard_of]; unfold TypeCalm.optional.
  destruct v; cbn [typeof]; split; intro H; eauto;
    try (destruct H as [H | H]; [discriminate | exact H]).
  exists VUndefined; reflexivity.
Qed.

(** X6: [nullable(g)] lets through [null] and what [g] lets through,
    [optional(g)] lets through [undefined] and what [g] lets through, and
    the two modifiers can be nested in either order. *)
Theorem X6_nullable_optional (s : schema) (v : value) :
  (accepts (SNullable s) v <-> v = VNull \/ accepts s v) /\
  (accepts (SOptional s) v <-> v = VUndefined \/ accepts s v) /\
  (accepts (SNullable (SOptional s)) v <-> accepts (SOptional (SNullable s)) v).
Proof.
  repeat split; rewrite ?accepts_nullable, ?accepts_optional,
    ?accepts_nullable; tauto.
Qed.

End Acceptance.

(** ** Results of [array], [object] and [recordOf] *)

Section Structures.
Context {E : Engine}.

Lemma Array_map_inv (c : bool) (g : TypeGuard) (fe : bool) :
  disciplined_guard c g ->
  forall vs rs,
    outcome (Array_map g vs fe) = Normal rs ->
    Forall2 (fun v r => outcome (g v fe) = Normal r) vs rs.
Proof.
  intro Hg; induction vs as [| v vs IH]; intros rs H; simpl in H.
  - inversion H; constructor.
  - unfold bind, ret in H. destruct (Hg v) as [Hf _]; specialize (Hf fe).
    destruct (g v fe) as [[a | e] f t] eqn:Hv; simpl in *; [| discriminate].
    subst f.
    destruct (Array_map g vs fe) as [[ys | e] f t'] eqn:Hvs; simpl in *;
      [| discriminate].
    inversion H; subst; constructor; [rewrite Hv; reflexivity | auto].
Qed.

(** X7: whenever [array(g)] returns on an array, the result is an array of
    the same length whose elements are the results of [g] on the elements
    of the input, in order; and it returns whenever [g] returns on every
    element. *)
Theorem X7_array_result (c : bool) (s : schema) (elems : list value)
    (r : value) (fe : bool) :
  outcome (guard_of c (SArray s) (VArr elems) fe) = Normal r <->
  exists out,
    r = VArr out /\ length out = length elems /\
    Forall2 (fun v x => outcome (guard_of c s v fe) = Normal x) elems out.
Proof.
  change (guard_of c (SArray s)) with (TypeCalm.array c (guard_of c s)).
  rewrite array_outcome; split.
  - destruct (outcome (Array_map (guard_of c s) elems fe)) as [out | e] eqn:H;
      intro Hr; inversion Hr; subst.
    exists out; split; [reflexivity |].
    pose proof (Array_map_inv c _ fe (disciplined_guard_of c s) _ _ H) as HF.
    split; [symmetry; apply (Forall2_length HF) | exact HF].
  - intros (out & -> & _ & HF).
    destruct (Array_map_returns c _ fe elems out (disciplined_guard_of c s) HF)
      as [Ho _].
    rewrite Ho; reflexivity.
Qed.

Lemma bind_Normal {A B : Type} (m : M A) (k : A -> M B) (fe : bool) (a : A)
    (fe' : bool) (t : list string) :
  m fe = Result (Normal a) fe' t ->
  bind m k fe
    = Result (outcome (k a fe')) (forceError (k a fe'))
        (t ++ reported (k a fe'))%list.
Proof. unfold bind; intros ->; destruct (k a fe'); reflexivity. Qed.

Lemma bind_Throw {A B : Type} (m : M A) (k : A -> M B) (fe : bool)
    (e : exception) (fe' : bool) (t : list string) :
  m fe = Result (Throw e) fe' t ->
  bind m k fe = Result (Throw e) fe' t.
Proof. unfold bind; intros ->; reflexivity. Qed.

Lemma array_not_array (c : bool) (g : TypeGuard) (v : value) :
  (forall elems, v <> VArr elems) ->
  TypeCalm.array c g v =
    (TypeCalm.errorHandler c (invalidType v "an `array`") ;;
     text <- String_ v ;;
     TypeCalm.errorHandler c ("Wrapping " ++ quoted text ++ " in array") ;;
     out <- Array_map g [v] ;;
     ret (VArr out)).
Proof.
  intro Hv; destruct v; try reflexivity. exfalso; eapply Hv; reflexivity.
Qed.

Lemma errorHandler_throws (c : bool) (str : string) (fe : bool) :
  raising c fe = true ->
  TypeCalm.errorHandler c str fe = Result (Throw str) fe [].
Proof. intro H; run; rewrite H; reflexivity. Qed.

(** X8: on a value that is not an array, [array(g)] throws the [is not an
    array] message when no handler is configured.  With a handler and the
    flag clear it reports that message; then, when the value is
    convertible, it reports the [Wrapping] message and validates the value
    as the only element: if [g] returns [x] the call returns [[x]].  When
    the value is not convertible, building the [Wrapping] message throws a
    [TypeError] after the first report. *)
Theorem X8_array_wraps (s : schema) (v x : value) :
  (forall elems, v <> VArr elems) ->
  (forall fe, guard_of false (SArray s) v fe
              = Result (Throw (invalidType v "an `array`")) fe []) /\
  (convertible v = true ->
   outcome (guard_of true s v false) = Normal x ->
   guard_of true (SArray s) v false
     = Result (Normal (VArr [x])) false
         (invalidType v "an `array`"
            :: ("Wrapping " ++ quoted (ToString v) ++ " in array")
            :: reported (guard_of true s v false))) /\
  (convertible v = false ->
   guard_of true (SArray s) v false
     = Result (Throw (TypeError CannotConvert)) false
         [invalidType v "an `array`"]).
Proof.
  intro Hv.
  change (guard_of false (SArray s)) with (TypeCalm.array false (guard_of false s)).
  change (guard_of true (SArray s)) with (TypeCalm.array true (guard_of true s)).
  rewrite !(array_not_array _ _ _ Hv); split; [| split].
  - intro fe; apply bind_Throw, errorHandler_throws; destruct fe; reflexivity.
  - intros Hc Hx; cbn [Array_map]; unfold String_; rewrite Hc.
    assert (Hg : guard_of true s v false
                 = Result (Normal x) false (reported (guard_of true s v false))).
    { rewrite (result_eta (guard_of true s v false)) at 1.
      rewrite Hx, (proj1 (disciplined_guard_of true s v) false); reflexivity. }
    erewrite bind_Normal by reflexivity.
    erewrite bind_Normal by reflexivity.
    erewrite bind_Normal by reflexivity.
    erewrite bind_Normal by (erewrite bind_Normal by exact Hg; reflexivity).
    cbn [ret outcome forceError reported app]; rewrite ?app_nil_r.
    reflexivity.
  - intro Hc; unfold String_; rewrite Hc.
    erewrite bind_Normal by reflexivity.
    reflexivity.
Qed.

Lemma object_fields_accepts (shape : list (string * schema)) (val : value) :
  forall out,
    (exists r, outcome (TypeCalm.object_fields false (fields_of false shape)
                          val out false) = Normal r) <->
    Forall (fun p => accepts (snd p) (get val (fst p))) shape.
Proof.
  induction shape as [| [k s] shape IH]; intro out; simpl.
  - split; [constructor | exists (VObj out); reflexivity].
  - unfold bind.
    rewrite (object_field_unfold false k _ val out false
               (disciplined_guard_of false s _)).
    destruct (outcome (guard_of false s (get val k) true)) as [x | e] eqn:Hk;
      cbn [raising orb negb].
    + specialize (IH (set_prop out k x)). unfold fields_of in IH.
      destruct (TypeCalm.object_fields false _ val (set_prop out k x) false)
        as [o f t]; cbn [outcome] in *.
      rewrite IH; split; intro H.
      * constructor; [| exact H].
        apply (accepts_under_flag false); exists x; exact Hk.
      * inversion H; assumption.
    + split; [intros [r H]; discriminate |].
      intro H; inversion H as [| p l Hp _]; subst.
      apply (accepts_under_flag false) in Hp; cbn [fst snd] in Hp.
      destruct Hp as [x Hx]; congruence.
Qed.

(** X9: when no declared key is the name of a member of
    [Object.prototype], [object(shape)] lets a value that is not an array
    through exactly when it is a non-null object and every declared field
    lets through the value the object owns under its key, [undefined]
    standing for a key the object does not own; the other keys of the input
    play no part.  (Under a declared key that names an inherited member the
    code reads that member when the object owns no such property.) *)
Theorem X9_object_accepts (shape : list (string * schema)) (v : value) :
  (forall elems, v <> VArr elems) ->
  Forall (fun p => inherited (fst p) = false) shape ->
  (accepts (SObject shape) v <->
   is_null v = false /\ typeof v = "object" /\
   Forall (fun p => accepts (snd p) (get v (fst p))) shape).
Proof.
  intros _ _.
  unfold accepts at 1; cbn [guard_of]; unfold TypeCalm.object.
  destruct (is_null v) eqn:Hn; [| destruct (String.eqb (typeof v) "object") eqn:Ht];
    cbn [orb negb].
  - split; [intros [r H]; discriminate | intros [H _]; discriminate].
  - apply String.eqb_eq in Ht.
    rewrite (object_fields_accepts shape v []); tauto.
  - split; [intros [r H]; discriminate |].
    intros (_ & H & _); apply String.eqb_neq in Ht; contradiction.
Qed.

Lemma set_prop_fresh (out : list (string * value)) (k : string) (v : value) :
  ~ In k (map fst out) -> set_prop out k v = (out ++ [(k, v)])%list.
Proof.
  induction out as [| [k' v'] out IH]; simpl; intro H; [reflexivity |].
  destruct (String.eqb k' k) eqn:Hk.
  - apply String.eqb_eq in Hk; tauto.
  - rewrite IH by tauto; reflexivity.
Qed.

Lemma fresh_after (keys : list string) (k : string)
    (out0 : list (string * value)) (x : value) :
  NoDup (k :: keys) ->
  (forall k', In k' (k :: keys) -> ~ In k' (map fst out0)) ->
  forall k', In k' keys -> ~ In k' (map fst (out0 ++ [(k, x)])%list).
Proof.
  intros Hnd Hfresh k' Hin; rewrite map_app, in_app_iff; simpl.
  inversion Hnd; subst.
  intros [H | [H | []]]; [eapply Hfresh; [right |]; eassumption |].
  subst; contradiction.
Qed.

(** The loop of [object] appends one entry for each declared key. *)
Lemma object_fields_result (c : bool) (shape : list (string * schema))
    (val : value) (fe : bool) :
  NoDup (map fst shape) ->
  forall out0 r,
    (forall k, In k (map fst shape) -> ~ In k (map fst out0)) ->
    outcome (TypeCalm.object_fields c (fields_of c shape) val out0 fe)
      = Normal r ->
    exists out,
      r = VObj (out0 ++ out)%list /\
      Forall2 (field_result c val fe) shape out.
Proof.
  induction shape as [| [k s] shape IH]; intros Hnd out0 r Hfresh H.
  - simpl in H; inversion H; exists []; rewrite app_nil_r; split; constructor.
  - simpl in H, Hnd, Hfresh. unfold bind in H.
    rewrite (object_field_unfold c k _ val out0 fe
               (disciplined_guard_of c s _)) in H.
    assert (Hk : ~ In k (map fst out0)) by (apply Hfresh; left; reflexivity).
    assert (Hnd' : NoDup (map fst shape)) by (inversion Hnd; assumption).
    destruct (outcome (guard_of c s (get val k) true)) as [x | e] eqn:Hx.
    + rewrite (set_prop_fresh _ _ _ Hk) in H.
      destruct (TypeCalm.object_fields c (fields_of c shape) val
                  (out0 ++ [(k, x)]) fe) as [o f t] eqn:Hrest.
      cbn [outcome] in H; subst o.
      destruct (IH Hnd' (out0 ++ [(k, x)])%list r
                  (fresh_after _ _ _ _ Hnd Hfresh))
        as (out & -> & HF); [rewrite Hrest; reflexivity |].
      exists ((k, x) :: out); rewrite <- app_assoc; split; [reflexivity |].
      constructor; [| exact HF]. split; [reflexivity | left; exact Hx].
    + destruct (raising c fe) eqn:Hc; [discriminate |].
      rewrite (set_prop_fresh _ _ _ Hk) in H.
      destruct (TypeCalm.object_fields c (fields_of c shape) val
                  (out0 ++ [(k, get val k)]) fe) as [o f t] eqn:Hrest.
      cbn [outcome] in H; subst o.
      destruct (IH Hnd' (out0 ++ [(k, get val k)])%list r
                  (fresh_after _ _ _ _ Hnd Hfresh))
        as (out & -> & HF); [rewrite Hrest; reflexivity |].
      exists ((k, get val k) :: out); rewrite <- app_assoc;
        split; [reflexivity |].
      constructor; [| exact HF].
      split; [reflexivity | right; repeat split; eauto].
Qed.

Lemma Forall2_keys (c : bool) (val : value) (fe : bool)
    (shape : list (string * schema)) (out : list (string * value)) :
  Forall2 (field_result c val fe) shape out -> map fst out = map fst shape.
Proof.
  induction 1 as [| p q shape out [Hk _] _ IH]; simpl; congruence.
Qed.

(** X10: when [object(shape)] returns on a non-null object, the result is
    an object with exactly the declared keys, in declared order, whatever
    other keys the input has.  Each key holds the value its guard returned;
    only when the failure of that guard was reported to the handler (a
    handler is configured and the flag is clear) does it hold the raw value
    of the input. *)
Theorem X10_object_result (c : bool) (shape : list (string * schema))
    (val r : value) (fe : bool) :
  NoDup (map fst shape) ->
  is_null val = false -> typeof val = "object" ->
  outcome (guard_of c (SObject shape) val fe) = Normal r ->
  exists out,
    r = VObj out /\ map fst out = map fst shape /\
    Forall2 (field_result c val fe) shape out.
Proof.
  intros Hnd Hn Ht H. rewrite (object_structured _ _ _ _ Hn Ht) in H.
  destruct (object_fields_result c shape val fe Hnd [] r (fun _ _ H => H) H)
    as (out & -> & HF).
  exists out; repeat split; [eapply Forall2_keys; eassumption | exact HF].
Qed.

End Structures.

(** ** [recordOf] *)

Section Records.
Context {E : Engine}.

Lemma recordOf_structured (c : bool) (s : schema) (val : value) (fe : bool) :
  is_null val = false -> typeof val = "object" ->
  guard_of c (SRecordOf s) val fe
    = TypeCalm.recordOf_fields (guard_of c s) val (own_keys val) [] fe.
Proof.
  intros Hn Ht; cbn [guard_of]; unfold TypeCalm.recordOf; rewrite Hn, Ht.
  reflexivity.
Qed.

Lemma recordOf_fields_throws (c : bool) (g : TypeGuard) (val : value)
    (fe : bool) (pre : list string) (k : string) (post : list string)
    (e : string) :
  disciplined_guard c g ->
  Forall (fun k' => exists r, outcome (g (get val k') fe) = Normal r) pre ->
  outcome (g (get val k) fe) = Throw e ->
  forall out,
    outcome (TypeCalm.recordOf_fields g val (pre ++ k :: post) out fe)
      = Throw e.
Proof.
  intros Hg Hpre Hk; induction Hpre as [| k' pre [r Hr] _ IH]; intro out;
    simpl; unfold bind.
  - destruct (g (get val k) fe) as [[x | e'] f t]; simpl in *;
      [discriminate | exact Hk].
  - destruct (Hg (get val k')) as [Hf _]; specialize (Hf fe).
    destruct (g (get val k') fe) as [[x | e'] f t]; simpl in *;
      [| discriminate].
    subst f; specialize (IH (set_prop out k' x)).
    destruct (TypeCalm.recordOf_fields g val (pre ++ k :: post)
                (set_prop out k' x) fe) as [o f' t']; exact IH.
Qed.

(** X11: [recordOf(g)] passes the failure of [g] on as it is: without a
    handler, when the first key whose value [g] rejects is [k], the call
    throws the very message of [g] on that value; no key name is added, as
    [object] would do. *)
Theorem X11_recordOf_propagates (s : schema) (val : value) (fe : bool)
    (pre : list string) (k : string) (post : list string) (e : string) :
  is_null val = false -> typeof val = "object" ->
  own_keys val = (pre ++ k :: post)%list ->
  Forall (fun k' => exists r,
            outcome (guard_of false s (get val k') fe) = Normal r) pre ->
  outcome (guard_of false s (get val k) fe) = Throw e ->
  guard_of false (SRecordOf s) val fe = Result (Throw e) fe [].
Proof.
  intros Hn Ht Hkeys Hpre Hk.
  destruct (disciplined_guard_of false (SRecordOf s) val) as [Hf Hr].
  rewrite (result_eta (guard_of _ _ _ _)), Hf, Hr by (destruct fe; reflexivity).
  rewrite (recordOf_structured _ _ _ _ Hn Ht), Hkeys.
  rewrite (recordOf_fields_throws false _ val fe pre k post e
             (disciplined_guard_of false s) Hpre Hk).
  reflexivity.
Qed.

Lemma recordOf_fields_accepts (s : schema) (val : value) (keys : list string) :
  forall out,
    (exists r, outcome (TypeCalm.recordOf_fields (guard_of false s) val keys
                          out false) = Normal r) <->
    Forall (fun k => accepts s (get val k)) keys.
Proof.
  induction keys as [| k keys IH]; intro out; simpl.
  - split; [constructor | exists (VObj out); reflexivity].
  - unfold bind.
    destruct (disciplined_guard_of false s (get val k)) as [Hf _].
    specialize (Hf false).
    destruct (guard_of false s (get val k) false) as [[x | e] f t] eqn:Hk;
      simpl in Hf; subst f.
    + specialize (IH (set_prop out k x)).
      destruct (TypeCalm.recordOf_fields (guard_of false s) val keys
                  (set_prop out k x) false) as [o f t']; cbn [outcome] in *.
      rewrite IH; split; intro H.
      * constructor; [exists x; rewrite Hk; reflexivity | exact H].
      * inversion H; assumption.
    + split; [intros [r H]; discriminate |].
      intro H; inversion H as [| k0 l [x Hx] _]; subst.
      rewrite Hk in Hx; discriminate.
Qed.

(** X12: [recordOf(g)] lets a value through exactly when it is a non-null
    object and [g] lets through the value of every key the object has; an
    object without keys is always let through. *)
Theorem X12_recordOf_accepts (s : schema) (v : value) :
  accepts (SRecordOf s) v <->
  is_null v = false /\ typeof v = "object" /\
  Forall (fun k => accepts s (get v k)) (own_keys v).
Proof.
  unfold accepts at 1; cbn [guard_of]; unfold TypeCalm.recordOf.
  destruct (is_null v) eqn:Hn; [| destruct (String.eqb (typeof v) "object") eqn:Ht];
    cbn [orb negb].
  - split; [intros [r H]; discriminate | intros [H _]; discriminate].
  - apply String.eqb_eq in Ht.
    rewrite (recordOf_fields_accepts s v (own_keys v) []); tauto.
  - split; [intros [r H]; discriminate |].
    intros (_ & H & _); apply String.eqb_neq in Ht; contradiction.
Qed.

End Records.

(** ** Validating a result again *)

Section Idempotence.
Context {E : Engine}.
Variable c : bool.

Lemma returns_alone (s : schema) (v r : value) (fe : bool) :
  raising c fe = true ->
  outcome (guard_of c s v fe) = Normal r ->
  guard_of c s v fe = Result (Normal r) fe [].
Proof.
  intros Hc H. destruct (disciplined_guard_of c s v) as [Hf Hr].
  rewrite (result_eta (guard_of c s v fe)), H, Hf, (Hr fe Hc); reflexivity.
Qed.

Lemma errorHandler_first (str : string) {A : Type} (k : unit -> M A)
    (fe : bool) (r : A) :
  raising c fe = true ->
  outcome (bind (TypeCalm.errorHandler c str) k fe) = Normal r -> False.
Proof.
  intros Hc H.
  rewrite (bind_Throw _ _ _ _ _ _ (errorHandler_throws c str fe Hc)) in H.
  discriminate.
Qed.

Lemma assoc_entry (out : list (string * value)) (q : string * value) :
  NoDup (map fst out) -> In q out -> assoc (fst q) out = Some (snd q).
Proof.
  induction out as [| [k x] out IH]; simpl; intros Hnd Hin; [contradiction |].
  inversion Hnd as [| ? ? Hk Hnd']; subst.
  destruct Hin as [<- | Hin]; simpl.
  - rewrite String.eqb_refl; reflexivity.
  - destruct (String.eqb k (fst q)) eqn:Hkq; [| auto].
    apply String.eqb_eq in Hkq; subst.
    exfalso; apply Hk, in_map, Hin.
Qed.

Lemma NoDup_app_fresh (done rest : list (string * value)) (q : string * value) :
  NoDup (map fst (done ++ q :: rest)) -> ~ In (fst q) (map fst done).
Proof.
  rewrite map_app; simpl; intros H Hin.
  apply NoDup_remove_2 in H; apply H, in_or_app; left; exact Hin.
Qed.

(** Validating the result of [object] again visits the same keys and finds
    under each the value stored there. *)
Lemma object_fields_again (out : list (string * value)) (fe : bool) :
  NoDup (map fst out) ->
  forall shape rest done,
    out = (done ++ rest)%list ->
    Forall2 (fun p q =>
               fst q = fst p /\
               outcome (guard_of c (snd p) (snd q) true) = Normal (snd q))
            shape rest ->
    TypeCalm.object_fields c (fields_of c shape) (VObj out) done fe
      = Result (Normal (VObj out)) fe [].
Proof.
  intros Hnd shape rest done Hout HF; revert done Hout.
  induction HF as [| [k s] q shape rest [Hk Hq] _ IH]; intros done Hout.
  - rewrite app_nil_r in Hout; subst; reflexivity.
  - cbn [fst snd] in *; simpl.
    assert (Hget : get (VObj out) k = snd q).
    { simpl; rewrite <- Hk, (assoc_entry out q Hnd); [reflexivity |].
      subst out; apply in_or_app; right; left; reflexivity. }
    erewrite bind_Normal; cycle 1.
    { apply object_field_returns; [apply disciplined_guard_of |].
      rewrite Hget; exact Hq. }
    rewrite set_prop_fresh
      by (rewrite <- Hk; apply (NoDup_app_fresh done rest q); subst; exact Hnd).
    rewrite <- Hk. replace (fst q, snd q) with q by (destruct q; reflexivity).
    rewrite (IH (done ++ [q])%list)
      by (rewrite <- app_assoc; exact Hout).
    reflexivity.
Qed.

(** The loop of [recordOf] keeps the keys of its result distinct and stores
    under each key the result of the guard for that key. *)
Lemma set_prop_keys (out : list (string * value)) (k k0 : string) (x : value) :
  In k0 (map fst (set_prop out k x)) -> k0 = k \/ In k0 (map fst out).
Proof.
  induction out as [| [k' x'] out IH]; simpl.
  - intros [<- | []]; auto.
  - destruct (String.eqb k' k); simpl; tauto.
Qed.

Lemma set_prop_keeps (P : string * value -> Prop)
    (out : list (string * value)) (k : string) (x : value) :
  NoDup (map fst out) -> Forall P out -> P (k, x) ->
  NoDup (map fst (set_prop out k x)) /\ Forall P (set_prop out k x).
Proof.
  intros Hnd HP Hkx; induction out as [| [k' x'] out IH]; simpl in *.
  - split; repeat constructor; auto.
  - inversion Hnd as [| ? ? Hk' Hnd']; inversion HP as [| ? ? Hp HP']; subst.
    destruct (String.eqb k' k) eqn:Hk.
    + apply String.eqb_eq in Hk; subst; simpl; split; constructor; auto.
    + destruct (IH Hnd' HP') as [IHn IHp]; simpl; split; constructor; auto.
      intro Hin; apply set_prop_keys in Hin; destruct Hin as [-> | Hin];
        [rewrite String.eqb_refl in Hk; discriminate | contradiction].
Qed.

Lemma recordOf_fields_result (g : TypeGuard) (val : value) (fe : bool)
    (keys : list string) :
  disciplined_guard c g ->
  forall out0 r,
    NoDup (map fst out0) ->
    Forall (fun q => outcome (g (get val (fst q)) fe) = Normal (snd q)) out0 ->
    outcome (TypeCalm.recordOf_fields g val keys out0 fe) = Normal r ->
    exists out,
      r = VObj out /\ NoDup (map fst out) /\
      Forall (fun q => outcome (g (get val (fst q)) fe) = Normal (snd q)) out.
Proof.
  intro Hg; induction keys as [| k keys IH]; intros out0 r Hnd HP H;
    simpl in H.
  - inversion H; eauto.
  - unfold bind in H. destruct (Hg (get val k)) as [Hf _]; specialize (Hf fe).
    destruct (g (get val k) fe) as [[x | e] f t] eqn:Hk; simpl in Hf; subst f;
      [| discriminate].
    destruct (TypeCalm.recordOf_fields g val keys (set_prop out0 k x) fe)
      as [o f t'] eqn:Hrest; cbn [outcome] in H; subst o.
    destruct (set_prop_keeps
                (fun q => outcome (g (get val (fst q)) fe) = Normal (snd q))
                out0 k x Hnd HP) as [Hnd' HP'];
      [cbn [fst snd]; rewrite Hk; reflexivity |].
    apply (IH (set_prop out0 k x) r Hnd' HP').
    rewrite Hrest; reflexivity.
Qed.

Lemma recordOf_fields_again (g : TypeGuard) (out : list (string * value))
    (fe : bool) :
  NoDup (map fst out) ->
  Forall (fun q => g (snd q) fe = Result (Normal (snd q)) fe []) out ->
  forall rest done,
    out = (done ++ rest)%list ->
    TypeCalm.recordOf_fields g (VObj out) (map fst rest) done fe
      = Result (Normal (VObj out)) fe [].
Proof.
  intros Hnd HP; induction rest as [| q rest IH]; intros done Hout; simpl.
  - rewrite app_nil_r in Hout; subst; reflexivity.
  - assert (Hin : In q out)
      by (subst out; apply in_or_app; right; left; reflexivity).
    rewrite (assoc_entry out q Hnd Hin).
    erewrite bind_Normal
      by (exact (proj1 (Forall_forall _ out) HP q Hin)).
    rewrite set_prop_fresh
      by (apply (NoDup_app_fresh done rest q); subst; exact Hnd).
    replace (fst q, snd q) with q by (destruct q; reflexivity).
    rewrite (IH (done ++ [q])%list) by (rewrite <- app_assoc; exact Hout).
    reflexivity.
Qed.

Lemma distinct_keys_fields (inner : list (string * schema)) :
  distinct_keys (SObject inner) ->
  NoDup (map fst inner) /\ Forall (fun p => distinct_keys (snd p)) inner.
Proof.
  intros [Hnd H]; split; [exact Hnd |].
  clear Hnd; induction inner as [| p inner IH]; constructor; tauto.
Qed.

Lemma Forall2_diag {A B : Type} (R : A -> B -> Prop) (R' : B -> B -> Prop)
    (l : list A) (l' : list B) :
  Forall2 R l l' -> (forall a b, In a l -> R a b -> R' b b) -> Forall2 R' l' l'.
Proof.
  induction 1; intro H'; constructor;
    [eapply H'; [left; reflexivity | eassumption] |].
  apply IHForall2; intros; eapply H'; [right |]; eassumption.
Qed.

Ltac first_call_throws H Hc :=
  exfalso; eapply errorHandler_first; [exact Hc | exact H].

(** A conversion followed by a report: whichever fails, nothing returns. *)
Ltac report_throws H Hc :=
  exfalso; unfold String_, Number_ in H; run;
  repeat match type of H with
         | context [convertible ?v] => destruct (convertible v)
         end;
  run; rewrite ?Hc in H; run; discriminate H.

Lemma idempotent_number : idempotent_at c SNumber.
Proof.
  intros v r fe Hc H; assert (r = v); [| subst; exact H].
  cbn [guard_of] in H; unfold TypeCalm.number in H.
  destruct (negb (String.eqb (typeof v) "number")); [first_call_throws H Hc |].
  destruct (self_ne v); cbn [when] in H; [report_throws H Hc |].
  inversion H; reflexivity.
Qed.

Lemma idempotent_string : idempotent_at c SString.
Proof.
  intros v r fe Hc H; assert (r = v); [| subst; exact H].
  cbn [guard_of] in H; unfold TypeCalm.string in H.
  destruct (negb (String.eqb (typeof v) "string")); [first_call_throws H Hc |].
  inversion H; reflexivity.
Qed.

Lemma idempotent_boolean : idempotent_at c SBoolean.
Proof.
  intros v r fe Hc H; assert (r = v); [| subst; exact H].
  cbn [guard_of] in H; unfold TypeCalm.boolean in H.
  destruct (negb (String.eqb (typeof v) "boolean")); [first_call_throws H Hc |].
  inversion H; reflexivity.
Qed.

Lemma idempotent_array (s : schema) :
  idempotent_at c s -> idempotent_at c (SArray s).
Proof.
  intros IH v r fe Hc H.
  change (guard_of c (SArray s)) with (TypeCalm.array c (guard_of c s)) in *.
  destruct v as [| | | | | elems |];
    try (rewrite array_not_array in H by discriminate;
         first_call_throws H Hc).
  rewrite array_outcome in H.
  destruct (outcome (Array_map (guard_of c s) elems fe)) as [out | e] eqn:Hm;
    inversion H; subst.
  rewrite array_outcome.
  pose proof (Array_map_inv c _ fe (disciplined_guard_of c s) _ _ Hm) as HF.
  destruct (Array_map_returns c (guard_of c s) fe out out
              (disciplined_guard_of c s)) as [Ho _]; [| rewrite Ho; reflexivity].
  apply (Forall2_diag _ _ _ _ HF); intros a b _ Hab; exact (IH a b fe Hc Hab).
Qed.

Lemma idempotent_object (inner : list (string * schema)) :
  NoDup (map fst inner) ->
  Forall (fun p => idempotent_at c (snd p)) inner ->
  idempotent_at c (SObject inner).
Proof.
  intros Hnd IH v r fe Hc H.
  destruct (is_null v || negb (String.eqb (typeof v) "object")) eqn:Hv.
  - cbn [guard_of] in H; unfold TypeCalm.object in H; rewrite Hv in H.
    first_call_throws H Hc.
  - apply orb_false_elim in Hv; destruct Hv as [Hn Ht].
    apply negb_false_iff, String.eqb_eq in Ht.
    rewrite (object_structured _ _ _ _ Hn Ht) in H.
    destruct (object_fields_result c inner v fe Hnd [] r (fun _ _ H => H) H)
      as (out & -> & HF); cbn [app] in *.
    rewrite (object_structured c inner (VObj out) fe eq_refl eq_refl).
    rewrite (object_fields_again out fe) with (rest := out);
      [reflexivity | | reflexivity |].
    + rewrite (Forall2_keys _ _ _ _ _ HF); exact Hnd.
    + clear H Hnd. induction HF as [| p q inner out [Hk Hq] _ IHF];
        constructor.
      * split; [exact Hk |].
        destruct Hq as [Hq | (Hc' & _)]; [| congruence].
        inversion IH as [| ? ? Hp _]; subst.
        exact (Hp _ _ true (raising_set c) Hq).
      * apply IHF; inversion IH; assumption.
Qed.

Lemma idempotent_recordOf (s : schema) :
  idempotent_at c s -> idempotent_at c (SRecordOf s).
Proof.
  intros IH v r fe Hc H.
  destruct (is_null v || negb (String.eqb (typeof v) "object")) eqn:Hv.
  - cbn [guard_of] in H; unfold TypeCalm.recordOf in H; rewrite Hv in H.
    first_call_throws H Hc.
  - apply orb_false_elim in Hv; destruct Hv as [Hn Ht].
    apply negb_false_iff, String.eqb_eq in Ht.
    rewrite (recordOf_structured _ _ _ _ Hn Ht) in H.
    destruct (recordOf_fields_result (guard_of c s) v fe (own_keys v)
                (disciplined_guard_of c s) [] r (NoDup_nil _) (Forall_nil _) H)
      as (out & -> & Hnd & HP).
    rewrite (recordOf_structured c s (VObj out) fe eq_refl eq_refl).
    cbn [own_keys].
    rewrite (recordOf_fields_again (guard_of c s) out fe Hnd) with (done := []);
      [reflexivity | | reflexivity].
    apply Forall_forall; intros q Hq.
    apply returns_alone; [exact Hc |].
    apply (IH (get v (fst q)) (snd q) fe Hc).
    exact (proj1 (Forall_forall _ out) HP q Hq).
Qed.

Lemma idempotent_nullable (s : schema) :
  idempotent_at c s -> idempotent_at c (SNullable s).
Proof.
  intros IH v r fe Hc H; cbn [guard_of] in *; unfold TypeCalm.nullable in *.
  destruct (is_null v) eqn:Hv.
  - inversion H; subst; rewrite Hv; reflexivity.
  - destruct (is_null r); [reflexivity | exact (IH v r fe Hc H)].
Qed.

Lemma idempotent_optional (s : schema) :
  idempotent_at c s -> idempotent_at c (SOptional s).
Proof.
  intros IH v r fe Hc H; cbn [guard_of] in *; unfold TypeCalm.optional in *.
  destruct (String.eqb (typeof v) "undefined") eqn:Hv.
  - inversion H; subst; rewrite Hv; reflexivity.
  - destruct (String.eqb (typeof r) "undefined");
      [reflexivity | exact (IH v r fe Hc H)].
Qed.

Lemma idempotent_either (a b : schema) : idempotent_at c (SEither a b).
Proof.
  intros v r fe Hc H; assert (r = v); [| subst; exact H].
  cbn [guard_of] in H.
  rewrite (either_unfold c _ _ v fe
             (disciplined_guard_of c a) (disciplined_guard_of c b)), Hc in H.
  destruct (outcome (guard_of c a v true));
    [| destruct (outcome (guard_of c b v true))];
    inversion H; reflexivity.
Qed.

Lemma idempotent_stringBoolean : idempotent_at c SStringBoolean.
Proof.
  intros v r fe Hc H.
  assert (Hr : r = v /\ typeof v = "boolean" \/ exists b, r = VBool b).
  { cbn [guard_of] in H; unfold TypeCalm.stringBoolean in H.
    destruct (String.eqb (typeof v) "boolean") eqn:Ht.
    - apply String.eqb_eq in Ht; inversion H; subst; left; split;
        [reflexivity | exact Ht].
    - destruct v; try report_throws H Hc.
      destruct (String.eqb s "true");
        [inversion H; right; eexists; reflexivity |].
      destruct (String.eqb s "false");
        [inversion H; right; eexists; reflexivity | report_throws H Hc]. }
  destruct Hr as [[-> _] | [b ->]]; [exact H | reflexivity].
Qed.

Lemma idempotent_toNumber : idempotent_at c SToNumber.
Proof.
  intros v r fe Hc H; cbn [guard_of] in *; unfold TypeCalm.toNumber in *.
  unfold Number_ at 1 in H.
  destruct (convertible v); [| discriminate H].
  erewrite bind_Normal in H by reflexivity; cbv zeta in H; cbn [outcome] in H.
  destruct (self_ne (VNum (ToNumber v))) eqn:Hs; cbn [when] in H;
    [report_throws H Hc |].
  inversion H; subst.
  unfold Number_; cbn [convertible ToNumber].
  erewrite bind_Normal by reflexivity; cbv zeta; rewrite Hs; reflexivity.
Qed.

Lemma idempotent_toString : idempotent_at c SToString.
Proof.
  intros v r fe Hc H; cbn [guard_of] in *; unfold TypeCalm.toString, String_ in *.
  destruct (convertible v); [| discriminate H].
  inversion H; reflexivity.
Qed.

Lemma idempotent_oneOf (values : list value) : idempotent_at c (SOneOf values).
Proof.
  intros v r fe Hc H; assert (r = v); [| subst; exact H].
  cbn [guard_of] in H; unfold TypeCalm.oneOf in H.
  destruct (includes values v); [inversion H; reflexivity |].
  first_call_throws H Hc.
Qed.

Lemma idempotent_enumMember (enumType : list (string * value)) :
  idempotent_at c (SEnumMember enumType).
Proof.
  intros v r fe Hc H; assert (r = v); [| subst; exact H].
  cbn [guard_of] in H; unfold TypeCalm.enumMember in H; cbv zeta in H.
  match type of H with
  | context [if ?b then _ else _] => destruct b
  end; [inversion H; reflexivity | first_call_throws H Hc].
Qed.

Lemma idempotent_guard_of (s : schema) : distinct_keys s -> idempotent_at c s.
Proof.
  induction s using schema_induction; intro Hd.
  - apply idempotent_number.
  - apply idempotent_string.
  - apply idempotent_boolean.
  - apply idempotent_array; auto.
  - destruct (distinct_keys_fields _ Hd) as [Hnd Hall].
    apply idempotent_object; [exact Hnd |].
    clear Hd Hnd; induction H; inversion Hall; constructor; auto.
  - apply idempotent_recordOf; auto.
  - apply idempotent_nullable; auto.
  - apply idempotent_optional; auto.
  - apply idempotent_either.
  - apply idempotent_stringBoolean.
  - intros v r fe _ H; inversion H; reflexivity.
  - apply idempotent_toNumber.
  - apply idempotent_toString.
  - apply idempotent_oneOf.
  - apply idempotent_enumMember.
  - exact (IHs Hd).
Qed.

(** X13: validation is idempotent.  While the policy raises, the value a
    guard returns is let through by the same guard unchanged, with nothing
    reported: converted values, rebuilt objects and arrays are fixed points
    of the guard that made them.  The declared keys of every [object] in
    the tree are distinct, and the guard reads and stores own properties
    only ([own_reads]): no [object] meets an array or declares the name of
    an inherited member, and no [recordOf] meets the key [__proto__]. *)
Theorem X13_validation_idempotent (s : schema) (v r : value) (fe : bool) :
  distinct_keys s ->
  own_reads s v = true ->
  raising c fe = true ->
  outcome (guard_of c s v fe) = Normal r ->
  guard_of c s r fe = Result (Normal r) fe [].
Proof.
  intros Hd _ Hc H; apply returns_alone; [exact Hc |].
  exact (idempotent_guard_of s Hd v r fe Hc H).
Qed.

End Idempotence.

(** ** Membership guards and converters *)

Section Converters.
Context {E : Engine}.

(** X14: whatever [enumMember(enumType)] returns is its input: a member is
    returned with nothing reported, and a value that is no member is
    reported once and still returned when a handler is configured and the
    flag is clear ([oneOf] returns [undefined] there); while the policy
    raises, a value that is no member makes the call throw. *)
Theorem X14_enumMember_returns_input (c : bool)
    (enumType : list (string * value)) (v : value) (fe : bool) :
  (forall r, outcome (TypeCalm.enumMember c enumType v fe) = Normal r -> r = v) /\
  (includes (map (fun key => get (VObj enumType) key) (map fst enumType)) v
     = true ->
   TypeCalm.enumMember c enumType v fe = Result (Normal v) fe []) /\
  (includes (map (fun key => get (VObj enumType) key) (map fst enumType)) v
     = false ->
   TypeCalm.enumMember true enumType v false
     = Result (Normal v) false [invalidType v "a member of passed enum"] /\
   (raising c fe = true ->
    TypeCalm.enumMember c enumType v fe
      = Result (Throw (invalidType v "a member of passed enum")) fe [])).
Proof.
  unfold TypeCalm.enumMember; cbv zeta.
  destruct (includes _ v); repeat split; try discriminate.
  - intros r H; inversion H; reflexivity.
  - intros r H; run.
    destruct (fe || negb c); cbn in H; inversion H; reflexivity.
  - intro Hc; apply bind_Throw, errorHandler_throws, Hc.
Qed.

(** X15: [stringBoolean] returns a boolean unchanged and reads the strings
    [true] and [false] as the booleans they name, with nothing reported, so
    that it undoes [String] on booleans.  On every other value it fails.
    When the value is convertible it throws the [is not] message while the
    policy raises, and with a handler and the flag clear it reports that
    message and returns [Boolean(val)].  When the value is not convertible,
    building the message throws a [TypeError] in either mode, and nothing
    is reported. *)
Theorem X15_stringBoolean (c : bool) (v : value) (fe : bool) :
  (forall b, TypeCalm.stringBoolean c (VBool b) fe = Result (Normal (VBool b)) fe [] /\
             TypeCalm.stringBoolean c (VStr (ToString (VBool b))) fe
               = Result (Normal (VBool b)) fe []) /\
  ((forall b, v <> VBool b) -> v <> VStr "true" -> v <> VStr "false" ->
   (convertible v = true ->
    (raising c fe = true ->
     TypeCalm.stringBoolean c v fe
       = Result (Throw (quoted (ToString v) ++ " is not " ++ quoted "true"
                          ++ " or " ++ quoted "false" ++ " string")) fe []) /\
    TypeCalm.stringBoolean true v false
      = Result (Normal (VBool (ToBoolean v))) false
          [quoted (ToString v) ++ " is not " ++ quoted "true"
             ++ " or " ++ quoted "false" ++ " string"]) /\
   (convertible v = false ->
    TypeCalm.stringBoolean c v fe
      = Result (Throw (TypeError CannotConvert)) fe [])).
Proof.
  split; [intros [|]; split; reflexivity |].
  intros Hb Ht Hf.
  assert (H : forall c' : bool, TypeCalm.stringBoolean c' v =
            (text <- String_ v ;;
             TypeCalm.errorHandler c'
               (quoted text ++ " is not " ++ quoted "true" ++ " or "
                  ++ quoted "false" ++ " string") ;;
             ret (VBool (ToBoolean v)))).
  { intro c'; unfold TypeCalm.stringBoolean.
    destruct v; try reflexivity.
    - exfalso; eapply Hb; reflexivity.
    - cbn [typeof]. change (String.eqb "string" "boolean") with false.
      cbv iota.
      destruct (String.eqb s "true") eqn:H1;
        [apply String.eqb_eq in H1; subst; contradiction |].
      destruct (String.eqb s "false") eqn:H2;
        [apply String.eqb_eq in H2; subst; contradiction | reflexivity]. }
  rewrite !H; unfold String_; split; intro Hc; rewrite Hc; [split |].
  - intro Hr; erewrite bind_Normal by reflexivity.
    erewrite bind_Throw by (apply errorHandler_throws, Hr); reflexivity.
  - reflexivity.
  - reflexivity.
Qed.

End Converters.

(** ** Key casing and renaming *)

Section Casing.
Import casing.snakeCase.

Lemma toCamelCase_other (c : ascii) (rest : string) :
  is_underscore c = false ->
  toCamelCase (String c rest) = String c (toCamelCase rest).
Proof. intro H; destruct rest; simpl; rewrite ?H; reflexivity. Qed.

Lemma toCamelCase_pair (d : ascii) (rest : string) :
  after_underscore d = true ->
  toCamelCase (String "_" (String d rest))
    = String (toUpperCase d) (toCamelCase rest).
Proof. intro H; simpl; rewrite H; reflexivity. Qed.

Lemma toCamelCase_kept (c d : ascii) (rest : string) :
  after_underscore d = false ->
  toCamelCase (String c (String d rest))
    = String c (toCamelCase (String d rest)).
Proof. intro H; cbn [toCamelCase]; rewrite H, andb_false_r; reflexivity. Qed.

Lemma toCamelCase_length (str : string) :
  String.length (toCamelCase str) <= String.length str /\
  forall c, String.length (toCamelCase (String c str))
            <= S (String.length str).
Proof.
  induction str as [| d rest [IH1 IH2]]; [split; intros; simpl; lia |].
  split; [apply IH2 |].
  intro c; cbn [toCamelCase].
  destruct (is_underscore c && after_underscore d); simpl; [lia |].
  specialize (IH2 d); simpl in *; lia.
Qed.

(** X16: [toCamelCase] leaves a string without underscores as it is, never
    makes a string longer and gives the empty string only for the empty
    string. *)
Theorem X16_toCamelCase_plain (str : string) :
  (no_underscore str = true -> toCamelCase str = str) /\
  String.length (toCamelCase str) <= String.length str /\
  (toCamelCase str = "" -> str = "").
Proof.
  split; [| split].
  - induction str as [| c rest IH]; [reflexivity |].
    cbn [no_underscore]; intro H; apply andb_prop in H; destruct H as [Hc Hr].
    apply negb_true_iff in Hc.
    rewrite (toCamelCase_other c rest Hc), (IH Hr); reflexivity.
  - apply toCamelCase_length.
  - destruct str as [| c [| d rest]]; [reflexivity | discriminate |].
    cbn [toCamelCase]; destruct (is_underscore c && after_underscore d);
      discriminate.
Qed.

(** X17: in a string that starts with a part without underscores,
    [toCamelCase] replaces a following underscore and letter, or digit from
    1 to 9, by that character in upper case and goes on after it; an
    underscore followed by the digit 0 is kept as it is. *)
Theorem X17_toCamelCase_segments (a : string) (d : ascii) (b : string) :
  no_underscore a = true ->
  (after_underscore d = true ->
   toCamelCase (a ++ String "_" (String d b))
     = a ++ String (toUpperCase d) (toCamelCase b)) /\
  toCamelCase (a ++ String "_" (String "0" b))
    = a ++ String "_" (String "0" (toCamelCase b)).
Proof.
  intro Ha; induction a as [| c a IH]; simpl append.
  - split; [apply toCamelCase_pair |].
    rewrite (toCamelCase_kept "_" "0" b eq_refl),
      (toCamelCase_other "0" b eq_refl).
    reflexivity.
  - cbn [no_underscore] in Ha; apply andb_prop in Ha; destruct Ha as [Hc Hr].
    apply negb_true_iff in Hc. destruct (IH Hr) as [IH1 IH2].
    rewrite !(toCamelCase_other c _ Hc); split; [intro Hd |];
      rewrite ?IH1, ?IH2 by assumption; reflexivity.
Qed.

End Casing.

Section Renaming.
Context {E : Engine}.
Import casing.snakeCase.

Lemma rename_names_fold (statements : list (string * string)) (val : value)
    (names : list string) :
  forall mapped,
    TypeCalm.rename_names statements val names mapped
      = fold_left (fun m name =>
                     set_prop m (renamed statements name) (member val name))
                  names mapped.
Proof.
  induction names as [| name names IH]; intro mapped; simpl; [reflexivity |].
  rewrite IH; unfold renamed.
  destruct (assoc name statements) as [n |]; [| reflexivity].
  destruct (negb (String.eqb n "")); reflexivity.
Qed.

(** Storing the properties of an object under new keys that are distinct
    keeps every property. *)
Lemma fold_rekey (tgt : string -> string) (props : list (string * value)) :
  NoDup (map fst props) ->
  NoDup (map tgt (map fst props)) ->
  forall rest done,
    props = (done ++ rest)%list ->
    fold_left (fun m name => set_prop m (tgt name) (get (VObj props) name))
              (map fst rest) (map (fun p => (tgt (fst p), snd p)) done)
      = map (fun p => (tgt (fst p), snd p)) props.
Proof.
  intros Hnd Htgt; induction rest as [| q rest IH]; intros done Hp; simpl.
  - rewrite app_nil_r in Hp; subst; reflexivity.
  - assert (Hin : In q props)
      by (subst props; apply in_or_app; right; left; reflexivity).
    rewrite (assoc_entry props q Hnd Hin).
    rewrite set_prop_fresh.
    + rewrite <- (IH (done ++ [q])%list) by (rewrite <- app_assoc; exact Hp).
      rewrite map_app; reflexivity.
    + rewrite map_map; cbn [fst].
      subst props; rewrite !map_app in Htgt; simpl in Htgt.
      apply NoDup_remove_2 in Htgt; intro H; apply Htgt, in_or_app; left.
      rewrite map_map; exact H.
Qed.

Lemma rename_rekey (tgt : string -> string) (statements : list (string * string))
    (props : list (string * value)) :
  (forall name, In name (map fst props) -> renamed statements name = tgt name) ->
  NoDup (map fst props) ->
  NoDup (map tgt (map fst props)) ->
  TypeCalm.rename statements (VObj props)
    = VObj (map (fun p => (tgt (fst p), snd p)) props).
Proof.
  intros Ht Hnd Htgt; unfold TypeCalm.rename; cbn [for_in_keys own_keys member].
  rewrite rename_names_fold, <- (fold_rekey tgt props Hnd Htgt props [] eq_refl).
  cbn [member].
  f_equal; cbn [map].
  assert (Hgen : forall names m,
             (forall name, In name names -> In name (map fst props)) ->
             fold_left (fun m name =>
                          set_prop m (renamed statements name)
                            (get (VObj props) name)) names m
             = fold_left (fun m name =>
                            set_prop m (tgt name) (get (VObj props) name))
                 names m).
  { induction names as [| n names IH]; intros m Hin; simpl; [reflexivity |].
    rewrite (Ht n) by (apply Hin; left; reflexivity).
    apply IH; intros; apply Hin; right; assumption. }
  apply Hgen; auto.
Qed.

(** X18: on an object whose keys are ordinary (no array index, no name of
    an inherited member), [rename(statements)] keeps every property when
    the new keys are distinct and ordinary too: the property under [name]
    is stored under the name the statements give it, or under [name] when
    they give none or the empty one, in the order of the input; with no
    statement the object is copied as it is. *)
Theorem X18_rename_distinct (statements : list (string * string))
    (props : list (string * value)) :
  NoDup (map fst props) ->
  Forall (fun k => ordinary k = true) (map fst props) ->
  (NoDup (map (renamed statements) (map fst props)) ->
   Forall (fun k => ordinary k = true)
          (map (renamed statements) (map fst props)) ->
   TypeCalm.rename statements (VObj props)
     = VObj (map (fun p => (renamed statements (fst p), snd p)) props)) /\
  TypeCalm.rename [] (VObj props) = VObj props.
Proof.
  intros Hnd _; split; [intros Ht _; revert Ht |].
  - intro Ht; apply rename_rekey; auto.
  - rewrite (rename_rekey (fun k => k) [] props); auto.
    + f_equal; induction props as [| [k x] props IH]; simpl; [reflexivity |].
      f_equal; apply IH; inversion Hnd; assumption.
    + rewrite map_id; exact Hnd.
Qed.

Lemma assoc_assign {A : Type} (l : list (string * A)) (k k' : string) (x : A) :
  assoc k (assign l k' x) = if String.eqb k' k then Some x else assoc k l.
Proof.
  induction l as [| [k0 x0] l IH]; simpl.
  - reflexivity.
  - destruct (String.eqb k0 k') eqn:H0; simpl.
    + apply String.eqb_eq in H0; subst.
      destruct (String.eqb k' k); reflexivity.
    + rewrite IH. destruct (String.eqb k0 k) eqn:H1; [| reflexivity].
      apply String.eqb_eq in H1; subst; rewrite String.eqb_sym, H0.
      reflexivity.
Qed.

Lemma assoc_statements (f : string -> string) (names : list string)
    (name : string) :
  forall st,
    In name names \/ assoc name st = Some (f name) ->
    assoc name (fold_left (fun st n => assign st n (f n)) names st)
      = Some (f name).
Proof.
  induction names as [| n names IH]; intros st H; simpl.
  - destruct H as [[] | H]; exact H.
  - apply IH. rewrite assoc_assign.
    destruct (String.eqb n name) eqn:Hn.
    + apply String.eqb_eq in Hn; subst; right; reflexivity.
    + destruct H as [[H | H] | H]; auto.
      subst; rewrite String.eqb_refl in Hn; discriminate.
Qed.

(** X19: on an object whose keys are ordinary (no array index, no name of
    an inherited member), [renameCase.snake.toCamel] stores every property
    under the camel-case form of its key and keeps its value and the order,
    when those forms are distinct and ordinary too. *)
Theorem X19_renameCase_toCamel (props : list (string * value)) :
  NoDup (map fst props) ->
  Forall (fun k => ordinary k = true) (map fst props) ->
  NoDup (map toCamelCase (map fst props)) ->
  Forall (fun k => ordinary k = true) (map toCamelCase (map fst props)) ->
  TypeCalm.renameCase_snake_toCamel (VObj props)
    = VObj (map (fun p => (toCamelCase (fst p), snd p)) props).
Proof.
  intros Hnd _ Ht _; unfold TypeCalm.renameCase_snake_toCamel; cbv zeta.
  apply rename_rekey; auto.
  intros name Hin; unfold renamed; cbn [for_in_keys own_keys].
  rewrite (assoc_statements toCamelCase _ name) by (left; exact Hin).
  destruct (String.eqb (toCamelCase name) "") eqn:He; [| reflexivity].
  apply String.eqb_eq in He; cbn [negb]; rewrite He.
  destruct name as [| c [| d rest]]; [reflexivity | discriminate |].
  cbn [toCamelCase] in He;
    destruct (is_underscore c && after_underscore d); discriminate.
Qed.

End Renaming.

(** ** [mapper] *)

Section Mapping.
Context {E : Engine}.

Lemma assoc_set_prop (out : list (string * value)) (k k' : string) (x : value) :
  assoc k (set_prop out k' x) = if String.eqb k' k then Some x else assoc k out.
Proof.
  induction out as [| [k0 x0] out IH]; simpl.
  - reflexivity.
  - destruct (String.eqb k0 k') eqn:H0; simpl.
    + apply String.eqb_eq in H0; subst.
      destruct (String.eqb k' k); reflexivity.
    + rewrite IH. destruct (String.eqb k0 k) eqn:H1; [| reflexivity].
      apply String.eqb_eq in H1; subst; rewrite String.eqb_sym, H0.
      reflexivity.
Qed.

Lemma assoc_assignments (l : list (string * value)) (k : string) :
  forall acc,
    assoc k (fold_left (fun o p => set_prop o (fst p) (snd p)) l acc)
      = match last_binding k l with
        | Some x => Some x
        | None => assoc k acc
        end.
Proof.
  induction l as [| p l IH]; intro acc; simpl; [reflexivity |].
  rewrite IH, assoc_set_prop.
  destruct (last_binding k l); [reflexivity |].
  destruct (String.eqb (fst p) k); reflexivity.
Qed.

Lemma last_binding_app (k : string) (l1 l2 : list (string * value)) :
  last_binding k (l1 ++ l2)
    = match last_binding k l2 with
      | Some x => Some x
      | None => last_binding k l1
      end.
Proof.
  induction l1 as [| p l1 IH]; simpl.
  - destruct (last_binding k l2); reflexivity.
  - rewrite IH; destruct (last_binding k l2); reflexivity.
Qed.

Lemma last_binding_own (val : value) (k : string) (keys : list string) :
  last_binding k (map (fun k' => (k', get val k')) keys)
    = if existsb (String.eqb k) keys then Some (get val k) else None.
Proof.
  induction keys as [| k' keys IH]; simpl; [reflexivity |].
  rewrite IH, (String.eqb_sym k k').
  destruct (existsb (String.eqb k) keys); [rewrite orb_true_r; reflexivity |].
  rewrite orb_false_r.
  destruct (String.eqb k' k) eqn:Hk; [| reflexivity].
  apply String.eqb_eq in Hk; subst; reflexivity.
Qed.

Lemma try_catch_Normal {A : Type} (body : M A) (handler : exception -> M A)
    (fe : bool) (a : A) (fe' : bool) (t : list string) :
  body fe = Result (Normal a) fe' t ->
  try_catch body handler fe = Result (Normal a) fe' t.
Proof. unfold try_catch; intros ->; reflexivity. Qed.

Lemma try_catch_Throw {A : Type} (body : M A) (handler : exception -> M A)
    (fe : bool) (e : exception) (fe' : bool) :
  body fe = Result (Throw e) fe' [] ->
  try_catch body handler fe = handler e fe'.
Proof.
  unfold try_catch; intros ->; destruct (handler e fe'); reflexivity.
Qed.

Lemma mapper_statement_returns (c : bool) (name : string)
    (statement : value -> M value) (val : value)
    (mapped : list (string * value)) (fe : bool) (x : value) :
  statement val fe = Result (Normal x) fe [] ->
  TypeCalm.mapper_statement c name statement val mapped fe
    = Result (Normal (set_prop mapped name x)) fe [].
Proof.
  intro H; unfold TypeCalm.mapper_statement.
  apply try_catch_Normal. rewrite (bind_Normal _ _ _ _ _ _ H); reflexivity.
Qed.

Lemma mapper_statement_fails (c : bool) (name : string)
    (statement : value -> M value) (val : value)
    (mapped : list (string * value)) (fe : bool) (e : string) :
  statement val fe = Result (Throw e) fe [] ->
  TypeCalm.mapper_statement c name statement val mapped fe
    = if raising c fe
      then Result (Throw ("Cannot map `" ++ name ++ "`: " ++ Error_toString e))
             fe []
      else Result (Normal (set_prop mapped name VUndefined)) fe
             ["Cannot map `" ++ name ++ "`: " ++ Error_toString e;
              "Skipping `" ++ name ++ "`. Fingers crossed it's not important."].
Proof.
  intro H; unfold TypeCalm.mapper_statement.
  rewrite (try_catch_Throw _ _ _ _ _ (bind_Throw _ _ _ _ _ _ H)).
  unfold raising; destruct fe, c; reflexivity.
Qed.

Lemma mapper_statements_return (c : bool)
    (statements : list (string * (value -> M value))) (val : value)
    (fe : bool) (results : list (string * value)) :
  Forall2 (fun st q => fst q = fst st /\
                       snd st val fe = Result (Normal (snd q)) fe [])
          statements results ->
  forall mapped,
    TypeCalm.mapper_statements c statements val mapped fe
      = Result (Normal (fold_left (fun o p => set_prop o (fst p) (snd p))
                          results mapped)) fe [].
Proof.
  induction 1 as [| [name f] q statements results [Hk Hq] _ IH];
    intro mapped; simpl; [reflexivity |].
  cbn [fst snd] in *.
  rewrite (bind_Normal _ _ _ _ _ _
             (mapper_statement_returns c name f val mapped fe _ Hq)).
  rewrite IH, Hk; reflexivity.
Qed.

Lemma assignments_NoDup (l acc : list (string * value)) :
  NoDup (map fst acc) ->
  NoDup (map fst (fold_left (fun o p => set_prop o (fst p) (snd p)) l acc)).
Proof.
  revert acc; induction l as [| p l IH]; intros acc H; simpl; [exact H |].
  apply IH.
  apply (set_prop_keeps (fun _ => True) acc (fst p) (snd p) H);
    [apply Forall_forall; trivial | trivial].
Qed.

Lemma assoc_absent (l : list (string * value)) (k : string) :
  ~ In k (map fst l) -> assoc k l = None.
Proof.
  induction l as [| [k0 x0] l IH]; simpl; intro H; [reflexivity |].
  destruct (String.eqb k0 k) eqn:Hk; [| apply IH; tauto].
  apply String.eqb_eq in Hk; tauto.
Qed.

Lemma last_binding_assoc (l : list (string * value)) (k : string) :
  NoDup (map fst l) -> last_binding k l = assoc k l.
Proof.
  induction l as [| [k0 x0] l IH]; simpl; intro H; [reflexivity |].
  inversion H as [| ? ? Hk Hnd]; subst.
  rewrite (IH Hnd); cbn [fst snd].
  destruct (String.eqb k0 k) eqn:H0; [| destruct (assoc k l); reflexivity].
  apply String.eqb_eq in H0; subst.
  rewrite (assoc_absent l k Hk); reflexivity.
Qed.

Lemma existsb_keys (props : list (string * value)) (k : string) :
  existsb (String.eqb k) (map fst props)
    = match assoc k props with Some _ => true | None => false end.
Proof.
  induction props as [| [k0 x0] props IH]; simpl; [reflexivity |].
  rewrite IH, (String.eqb_sym k k0).
  destruct (String.eqb k0 k); reflexivity.
Qed.

Lemma last_binding_props (props : list (string * value)) (k : string) :
  last_binding k (own_props (VObj props)) = assoc k props.
Proof.
  unfold own_props; cbn [for_in_keys own_keys].
  change (fun k0 => (k0, member (VObj props) k0))
    with (fun k0 => (k0, get (VObj props) k0)).
  rewrite last_binding_own, existsb_keys; cbn [get].
  destruct (assoc k props); reflexivity.
Qed.

(** X20: when every statement of [mapper(statements)] returns, the call on
    an object returns an object in which the name of a statement holds the
    result of the last statement of that name, every other key of the input
    holds the value the input has there, and no other key is defined. *)
Theorem X20_mapper_lookup (c : bool)
    (statements : list (string * (value -> M value)))
    (props : list (string * value)) (fe : bool)
    (results : list (string * value)) :
  Forall2 (fun st q => fst q = fst st /\
                       snd st (VObj props) fe = Result (Normal (snd q)) fe [])
          statements results ->
  exists out,
    TypeCalm.mapper c statements (VObj props) fe
      = Result (Normal (VObj out)) fe [] /\
    forall k,
      assoc k out
        = match last_binding k results with
          | Some x => Some x
          | None => assoc k props
          end.
Proof.
  intro H; unfold TypeCalm.mapper.
  rewrite (bind_Normal _ _ _ _ _ _
             (mapper_statements_return c statements _ fe results H [])).
  eexists; split; [reflexivity |].
  intro k; unfold spread.
  rewrite assoc_assignments, last_binding_app.
  rewrite (last_binding_assoc
             (fold_left (fun o p => set_prop o (fst p) (snd p)) results []))
    by (apply assignments_NoDup; constructor).
  rewrite assoc_assignments, last_binding_props.
  destruct (last_binding k results); [reflexivity |].
  destruct (assoc k props); reflexivity.
Qed.

Lemma mapper_statements_fail (c : bool)
    (pre : list (string * (value -> M value))) (name : string)
    (f : value -> M value) (post : list (string * (value -> M value)))
    (val : value) (fe : bool) (results : list (string * value)) (e : string) :
  Forall2 (fun st q => fst q = fst st /\
                       snd st val fe = Result (Normal (snd q)) fe [])
          pre results ->
  f val fe = Result (Throw e) fe [] ->
  forall mapped,
    TypeCalm.mapper_statements c (pre ++ (name, f) :: post) val mapped fe
      = if raising c fe
        then Result (Throw ("Cannot map `" ++ name ++ "`: " ++ Error_toString e))
               fe []
        else
          let r := TypeCalm.mapper_statements c post val
                     (set_prop (fold_left (fun o p => set_prop o (fst p) (snd p))
                                  results mapped) name VUndefined) fe in
          Result (outcome r) (forceError r)
            (("Cannot map `" ++ name ++ "`: " ++ Error_toString e)
               :: ("Skipping `" ++ name
                     ++ "`. Fingers crossed it's not important.")
               :: reported r).
Proof.
  intros Hpre Hf.
  induction Hpre as [| [n g] q pre results [Hk Hq] _ IH]; intro mapped; simpl.
  - pose proof (mapper_statement_fails c name f val mapped fe e Hf) as Hs.
    destruct (raising c fe).
    + apply bind_Throw, Hs.
    + rewrite (bind_Normal _ _ _ _ _ _ Hs); reflexivity.
  - cbn [fst snd] in *.
    rewrite (bind_Normal _ _ _ _ _ _
               (mapper_statement_returns c n g val mapped fe _ Hq)).
    rewrite IH, Hk. destruct (raising c fe); reflexivity.
Qed.

(** X21: when a statement of [mapper] throws after the statements before it
    have returned, the call throws [Cannot map `name`: ] followed by the
    text of the error while the policy raises; otherwise both the
    [Cannot map] and the [Skipping] message are reported, and when the
    statement is the last one the call returns an object in which its name
    holds [undefined]. *)
Theorem X21_mapper_failure (c : bool)
    (pre : list (string * (value -> M value))) (name : string)
    (f : value -> M value) (post : list (string * (value -> M value)))
    (val : value) (fe : bool) (results : list (string * value)) (e : string) :
  Forall2 (fun st q => fst q = fst st /\
                       snd st val fe = Result (Normal (snd q)) fe [])
          pre results ->
  f val fe = Result (Throw e) fe [] ->
  (raising c fe = true ->
   TypeCalm.mapper c (pre ++ (name, f) :: post) val fe
     = Result (Throw ("Cannot map `" ++ name ++ "`: " ++ Error_toString e))
         fe []) /\
  (raising c fe = false ->
   exists out,
     TypeCalm.mapper c (pre ++ [(name, f)]) val fe
       = Result (Normal (VObj out)) fe
           ["Cannot map `" ++ name ++ "`: " ++ Error_toString e;
            "Skipping `" ++ name ++ "`. Fingers crossed it's not important."] /\
     assoc name out = Some VUndefined).
Proof.
  intros Hpre Hf; split; intro Hc; unfold TypeCalm.mapper.
  - apply bind_Throw.
    rewrite (mapper_statements_fail c pre name f post val fe results e Hpre Hf),
      Hc.
    reflexivity.
  - eexists; split.
    + erewrite bind_Normal; cycle 1.
      { rewrite (mapper_statements_fail c pre name f [] val fe results e Hpre Hf),
          Hc.
        reflexivity. }
      reflexivity.
    + unfold spread.
      rewrite assoc_assignments, last_binding_app, last_binding_assoc.
      * rewrite assoc_set_prop, String.eqb_refl; reflexivity.
      * apply (set_prop_keeps (fun _ => True));
          [apply assignments_NoDup; constructor
          | apply Forall_forall; trivial | trivial].
Qed.

End Mapping.

(** ** What [array] lets through *)

Section ArrayAcceptance.
Context {E : Engine}.

Lemma Forall_results (s : schema) (elems : list value) :
  Forall (accepts s) elems <->
  exists out,
    Forall2 (fun v x => outcome (guard_of false s v false) = Normal x) elems out.
Proof.
  split.
  - induction 1 as [| v elems [x Hx] _ [out IH]]; [exists []; constructor |].
    exists (x :: out); constructor; assumption.
  - intros [out H]; induction H; constructor; [eexists; eassumption | auto].
Qed.

(** X22: [array(g)] lets a value through exactly when it is an array and
    [g] lets every element through; the empty array is always let
    through. *)
Theorem X22_array_accepts (s : schema) (v : value) :
  accepts (SArray s) v <->
  exists elems, v = VArr elems /\ Forall (accepts s) elems.
Proof.
  unfold accepts at 1.
  change (guard_of false (SArray s)) with (TypeCalm.array false (guard_of false s)).
  destruct v as [| | | | | elems |];
    try (rewrite array_not_array by discriminate;
         rewrite (bind_Throw _ _ _ _ _ _
                    (errorHandler_throws false _ false eq_refl));
         split; [intros [r H]; discriminate
                | intros (elems & H & _); discriminate]).
  split.
  - intros [r H]; rewrite array_outcome in H.
    destruct (outcome (Array_map (guard_of false s) elems false))
      as [out | e] eqn:Hm; [| discriminate].
    exists elems; split; [reflexivity |].
    apply Forall_results; exists out.
    exact (Array_map_inv false _ false (disciplined_guard_of false s) _ _ Hm).
  - intros (elems' & Heq & HF); inversion Heq; subst elems'.
    apply Forall_results in HF; destruct HF as [out HF].
    destruct (Array_map_returns false _ false elems out
                (disciplined_guard_of false s) HF) as [Ho _].
    exists (VArr out); rewrite array_outcome, Ho; reflexivity.
Qed.

End ArrayAcceptance.

(** ** Closed instances of the further properties *)

Section MoreExamples.
#[local] Existing Instance sample_engine.
Import casing.snakeCase.

Lemma X1_witness :
  raising true true = true /\
  reported (guard_of true nested_shape failingTestValue true) = [].
Proof.
  exact (conj eq_refl
           (X1_raising_reports_nothing true nested_shape failingTestValue true
              eq_refl)).
Defined.

Lemma X3_witness :
  raising true true = true /\ raising false false = true /\
  outcome (guard_of true nested_shape failingTestValue true)
    = outcome (guard_of false nested_shape failingTestValue false).
Proof.
  exact (conj eq_refl (conj eq_refl
           (X3_raising_completion true false nested_shape failingTestValue
              true false eq_refl eq_refl))).
Defined.

Lemma X2_witness :
  permitted_convertible nested_shape = true /\
  all_convertible failingTestValue = true /\
  (exists r, outcome (guard_of true nested_shape failingTestValue false)
             = Normal r) /\
  forceError (guard_of true nested_shape failingTestValue false) = false.
Proof.
  exact (conj eq_refl (conj eq_refl
           (X2_custom_mode_returns nested_shape failingTestValue
              eq_refl eq_refl))).
Defined.

Lemma X8_witness :
  (forall elems, VNum 3%float <> VArr elems) /\
  guard_of false (SArray SNumber) (VNum 3%float) false
    = Result (Throw "`3` is not an `array`.") false [] /\
  guard_of true (SArray SNumber) (VNum 3%float) false
    = Result (Normal (VArr [VNum 3%float])) false
        ["`3` is not an `array`."; "Wrapping " ++ quoted "3" ++ " in array"] /\
  (forall elems, VObj [("toString", VNum 1%float)] <> VArr elems) /\
  guard_of true (SArray SNumber) (VObj [("toString", VNum 1%float)]) false
    = Result (Throw (TypeError "Cannot convert object to primitive value"))
        false ["`{" ++ quoted "toString" ++ ":1}` is not an `array`."].
Proof.
  assert (H : forall elems, VNum 3%float <> VArr elems) by discriminate.
  assert (H' : forall elems, VObj [("toString", VNum 1%float)] <> VArr elems)
    by discriminate.
  refine (conj H _).
  destruct (X8_array_wraps SNumber (VNum 3%float) (VNum 3%float) H)
    as (Hd & Hc & _).
  refine (conj (Hd false) (conj (Hc eq_refl eq_refl) (conj H' _))).
  exact (proj2 (proj2 (X8_array_wraps SNumber (VObj [("toString", VNum 1%float)])
                         VUndefined H')) eq_refl).
Defined.

Lemma X9_witness :
  (forall elems, VObj [("a", VNum 1%float)] <> VArr elems) /\
  Forall (fun p : string * schema => inherited (fst p) = false)
         [("a", SNumber); ("b", SOptional SString)] /\
  (accepts (SObject [("a", SNumber); ("b", SOptional SString)])
           (VObj [("a", VNum 1%float)]) <->
   is_null (VObj [("a", VNum 1%float)]) = false /\
   typeof (VObj [("a", VNum 1%float)]) = "object" /\
   Forall (fun p => accepts (snd p) (get (VObj [("a", VNum 1%float)]) (fst p)))
          [("a", SNumber); ("b", SOptional SString)]).
Proof.
  assert (H : forall elems, VObj [("a", VNum 1%float)] <> VArr elems)
    by discriminate.
  assert (H' : Forall (fun p : string * schema => inherited (fst p) = false)
                 [("a", SNumber); ("b", SOptional SString)])
    by (repeat constructor).
  exact (conj H (conj H' (X9_object_accepts _ _ H H'))).
Defined.

Lemma X10_witness :
  NoDup (map fst [("a", SNumber)]) /\
  outcome (guard_of false (SObject [("a", SNumber)])
             (VObj [("a", VNum 1%float); ("junk", VBool true)]) false)
    = Normal (VObj [("a", VNum 1%float)]) /\
  exists out,
    VObj [("a", VNum 1%float)] = VObj out /\
    map fst out = map fst [("a", SNumber)] /\
    Forall2 (field_result false
               (VObj [("a", VNum 1%float); ("junk", VBool true)]) false)
            [("a", SNumber)] out.
Proof.
  assert (H : NoDup (map fst [("a", SNumber)]))
    by (repeat constructor; simpl; tauto).
  exact (conj H (conj eq_refl
           (X10_object_result false [("a", SNumber)]
              (VObj [("a", VNum 1%float); ("junk", VBool true)])
              (VObj [("a", VNum 1%float)]) false H eq_refl eq_refl eq_refl))).
Defined.

Lemma X11_witness :
  own_keys (VObj [("x", VNum 1%float); ("y", VStr "2")]) = (["x"] ++ "y" :: [])%list /\
  outcome (guard_of false SNumber (VStr "2") false)
    = Throw ("`" ++ quoted "2" ++ "` is not a `number`.") /\
  guard_of false (SRecordOf SNumber)
    (VObj [("x", VNum 1%float); ("y", VStr "2")]) false
    = Result (Throw ("`" ++ quoted "2" ++ "` is not a `number`.")) false [].
Proof.
  refine (conj eq_refl (conj eq_refl _)).
  apply (X11_recordOf_propagates SNumber
           (VObj [("x", VNum 1%float); ("y", VStr "2")]) false ["x"] "y" []);
    try reflexivity.
  constructor; [exists (VNum 1%float); reflexivity | constructor].
Defined.

Lemma X13_witness :
  distinct_keys (SObject [("n", SToNumber); ("b", SStringBoolean)]) /\
  outcome (guard_of false (SObject [("n", SToNumber); ("b", SStringBoolean)])
             (VObj [("n", VStr "12"); ("b", VStr "true"); ("junk", VNull)])
             false)
    = Normal (VObj [("n", VNum 12%float); ("b", VBool true)]) /\
  guard_of false (SObject [("n", SToNumber); ("b", SStringBoolean)])
    (VObj [("n", VNum 12%float); ("b", VBool true)]) false
    = Result (Normal (VObj [("n", VNum 12%float); ("b", VBool true)])) false [].
Proof.
  assert (H : distinct_keys (SObject [("n", SToNumber); ("b", SStringBoolean)])).
  { simpl; repeat split; repeat constructor; simpl; intuition discriminate. }
  exact (conj H (conj eq_refl
           (X13_validation_idempotent false _
              (VObj [("n", VStr "12"); ("b", VStr "true"); ("junk", VNull)])
              (VObj [("n", VNum 12%float); ("b", VBool true)])
              false H eq_refl eq_refl eq_refl))).
Defined.

Lemma X14_witness :
  includes (map (fun key => get (VObj [("Up", VStr "UP"); ("Down", VStr "DOWN")]) key)
              (map fst [("Up", VStr "UP"); ("Down", VStr "DOWN")]))
           (VStr "LEFT") = false /\
  TypeCalm.enumMember true [("Up", VStr "UP"); ("Down", VStr "DOWN")]
    (VStr "LEFT") false
    = Result (Normal (VStr "LEFT")) false
        ["`" ++ quoted "LEFT" ++ "` is not a member of passed enum."].
Proof.
  exact (conj eq_refl
           (proj1 (proj2 (proj2
              (X14_enumMember_returns_input true
                 [("Up", VStr "UP"); ("Down", VStr "DOWN")] (VStr "LEFT") false))
              eq_refl))).
Defined.

Lemma X15_witness :
  TypeCalm.stringBoolean false (VStr "false") false
    = Result (Normal (VBool false)) false [] /\
  TypeCalm.stringBoolean false (VStr "yes") false
    = Result (Throw (quoted "yes" ++ " is not " ++ quoted "true" ++ " or "
                       ++ quoted "false" ++ " string")) false [] /\
  TypeCalm.stringBoolean false (VObj [("toString", VNum 1%float)]) false
    = Result (Throw (TypeError "Cannot convert object to primitive value"))
        false [].
Proof.
  refine (conj _ (conj _ _)).
  - exact (proj2 (proj1 (X15_stringBoolean false VNull false) false)).
  - destruct (proj2 (X15_stringBoolean false (VStr "yes") false))
      as [Hc _]; try discriminate.
    exact (proj1 (Hc eq_refl) eq_refl).
  - destruct (proj2 (X15_stringBoolean false
                       (VObj [("toString", VNum 1%float)]) false))
      as [_ Hn]; try discriminate.
    exact (Hn eq_refl).
Defined.

Lemma X16_witness :
  no_underscore "projectId" = true /\ toCamelCase "projectId" = "projectId".
Proof.
  exact (conj eq_refl (proj1 (X16_toCamelCase_plain "projectId") eq_refl)).
Defined.

Lemma X17_witness :
  no_underscore "project" = true /\ after_underscore "i" = true /\
  toCamelCase "project_id" = "projectId" /\
  toCamelCase "item_0x" = "item_0x".
Proof.
  refine (conj eq_refl (conj eq_refl (conj _ _))).
  - exact (proj1 (X17_toCamelCase_segments "project" "i" "d" eq_refl) eq_refl).
  - exact (proj2 (X17_toCamelCase_segments "item" "i" "x" eq_refl)).
Defined.

Lemma X18_witness :
  NoDup (map fst [("a", VNum 1%float); ("c", VNum 2%float)]) /\
  Forall (fun k => ordinary k = true)
         (map fst [("a", VNum 1%float); ("c", VNum 2%float)]) /\
  NoDup (map (renamed [("a", "b")])
           (map fst [("a", VNum 1%float); ("c", VNum 2%float)])) /\
  Forall (fun k => ordinary k = true)
         (map (renamed [("a", "b")])
            (map fst [("a", VNum 1%float); ("c", VNum 2%float)])) /\
  TypeCalm.rename [("a", "b")] (VObj [("a", VNum 1%float); ("c", VNum 2%float)])
    = VObj [("b", VNum 1%float); ("c", VNum 2%float)].
Proof.
  assert (H : NoDup (map fst [("a", VNum 1%float); ("c", VNum 2%float)]))
    by (repeat constructor; simpl; intuition discriminate).
  assert (Ho : Forall (fun k => ordinary k = true)
                 (map fst [("a", VNum 1%float); ("c", VNum 2%float)]))
    by (repeat constructor).
  assert (H' : NoDup (map (renamed [("a", "b")])
                        (map fst [("a", VNum 1%float); ("c", VNum 2%float)])))
    by (repeat constructor; simpl; intuition discriminate).
  assert (Ho' : Forall (fun k => ordinary k = true)
                  (map (renamed [("a", "b")])
                     (map fst [("a", VNum 1%float); ("c", VNum 2%float)])))
    by (repeat constructor).
  exact (conj H (conj Ho (conj H' (conj Ho'
           (proj1 (X18_rename_distinct [("a", "b")] _ H Ho) H' Ho'))))).
Defined.

Lemma X19_witness :
  Forall (fun k => ordinary k = true)
         (map fst [("project_id", VNum 20%float); ("category_id", VNum 40%float);
                   ("date_of_creation", VStr "2025-10-2")]) /\
  NoDup (map toCamelCase
           (map fst [("project_id", VNum 20%float); ("category_id", VNum 40%float);
                     ("date_of_creation", VStr "2025-10-2")])) /\
  Forall (fun k => ordinary k = true)
         (map toCamelCase
            (map fst [("project_id", VNum 20%float);
                      ("category_id", VNum 40%float);
                      ("date_of_creation", VStr "2025-10-2")])) /\
  TypeCalm.renameCase_snake_toCamel
    (VObj [("project_id", VNum 20%float); ("category_id", VNum 40%float);
           ("date_of_creation", VStr "2025-10-2")])
    = VObj [("projectId", VNum 20%float); ("categoryId", VNum 40%float);
            ("dateOfCreation", VStr "2025-10-2")].
Proof.
  assert (H : NoDup (map fst [("project_id", VNum 20%float);
                              ("category_id", VNum 40%float);
                              ("date_of_creation", VStr "2025-10-2")]))
    by (repeat constructor; simpl; intuition discriminate).
  assert (Ho : Forall (fun k => ordinary k = true)
                 (map fst [("project_id", VNum 20%float);
                           ("category_id", VNum 40%float);
                           ("date_of_creation", VStr "2025-10-2")]))
    by (repeat constructor).
  assert (H' : NoDup (map toCamelCase
                        (map fst [("project_id", VNum 20%float);
                                  ("category_id", VNum 40%float);
                                  ("date_of_creation", VStr "2025-10-2")])))
    by (repeat constructor; simpl; intuition discriminate).
  assert (Ho' : Forall (fun k => ordinary k = true)
                  (map toCamelCase
                     (map fst [("project_id", VNum 20%float);
                               ("category_id", VNum 40%float);
                               ("date_of_creation", VStr "2025-10-2")])))
    by (repeat constructor).
  exact (conj Ho (conj H' (conj Ho' (X19_renameCase_toCamel _ H Ho H' Ho')))).
Defined.

Lemma X20_witness :
  Forall2 (fun (st : string * (value -> M value)) q =>
             fst q = fst st /\
             snd st (VObj [("a", VNum 1%float)]) false
               = Result (Normal (snd q)) false [])
          [("x", fun v => ret (get v "a"))] [("x", VNum 1%float)] /\
  exists out,
    TypeCalm.mapper false [("x", fun v => ret (get v "a"))]
      (VObj [("a", VNum 1%float)]) false
      = Result (Normal (VObj out)) false [] /\
    forall k,
      assoc k out
        = match last_binding k [("x", VNum 1%float)] with
          | Some x => Some x
          | None => assoc k [("a", VNum 1%float)]
          end.
Proof.
  assert (H : Forall2 (fun (st : string * (value -> M value)) q =>
                         fst q = fst st /\
                         snd st (VObj [("a", VNum 1%float)]) false
                           = Result (Normal (snd q)) false [])
                [("x", fun v => ret (get v "a"))] [("x", VNum 1%float)])
    by (repeat constructor).
  exact (conj H (X20_mapper_lookup false _ _ false _ H)).
Defined.

Lemma X21_witness :
  TypeCalm.number false (VObj [("a", VNum 1%float)]) false
    = Result (Throw ("`{" ++ quoted "a" ++ ":1}` is not a `number`.")) false [] /\
  raising false false = true /\
  TypeCalm.mapper false ([] ++ ("y", TypeCalm.number false) :: [])
    (VObj [("a", VNum 1%float)]) false
    = Result (Throw ("Cannot map `y`: Error: `{" ++ quoted "a"
                       ++ ":1}` is not a `number`.")) false [].
Proof.
  refine (conj eq_refl (conj eq_refl _)).
  exact (proj1 (X21_mapper_failure false [] "y" (TypeCalm.number false) []
                  (VObj [("a", VNum 1%float)]) false [] _
                  (Forall2_nil _) eq_refl) eq_refl).
Defined.

(** The test of [renameCase] in the repository. *)
Example test_renameCase :
  TypeCalm.renameCase_snake_toCamel
    (VObj [("project_id", VNum 20%float); ("category_id", VNum 40%float);
           ("date_of_creation", VStr "2025-10-2")])
  = VObj [("projectId", VNum 20%float); ("categoryId", VNum 40%float);
          ("dateOfCreation", VStr "2025-10-2")].
Proof. reflexivity. Qed.

End MoreExamples.
